(** * The tutorial release notebook: file lists, confirmation and copy

    A shallow embedding of the two code cells of the release managers'
    notebook.  The first cell lists the released tutorials and the
    tutorials of the workspace and derives the three lists [refreshed],
    [added] and [removed]; the second cell asks for a confirmation and
    then copies and removes files.

    Strings are [string] (a sequence of 8-bit characters, compared by
    character code as Python compares code points), the file system is a
    finite map from absolute paths of regular files to their contents,
    and the second cell runs in a small state-and-exception monad. *)

From Stdlib Require Import Ascii.
From stdpp Require Import base strings list gmap sorting.

Local Open Scope string_scope.
Local Open Scope list_scope.
Set Warnings "-clear-no-such-hyp".

(** ** Paths *)

Module Path.

Definition is_slash (c : ascii) : bool := bool_decide (c = "/"%char).

Fixpoint contains_slash (p : string) : bool :=
  match p with
  | "" => false
  | String c p' => is_slash c || contains_slash p'
  end.

(** [os.path.basename]: what follows the last slash. *)
Fixpoint basename (p : string) : string :=
  match p with
  | "" => ""
  | String _ p' => if contains_slash p then basename p' else p
  end.

(** The head of [os.path.split]: everything up to and including the
    last slash ... *)
Fixpoint split_head (p : string) : string :=
  match p with
  | "" => ""
  | String c p' => if contains_slash p then String c (split_head p') else ""
  end.

Fixpoint all_slashes (p : string) : bool :=
  match p with
  | "" => true
  | String c p' => is_slash c && all_slashes p'
  end.

Fixpoint rstrip_slashes (p : string) : string :=
  match p with
  | "" => ""
  | String c p' =>
      match rstrip_slashes p' with
      | "" => if is_slash c then "" else String c ""
      | r => String c r
      end
  end.

(** ... without its trailing slashes, unless it has nothing else. *)
Definition dirname (p : string) : string :=
  let head := split_head p in
  if all_slashes head then head else rstrip_slashes head.

Fixpoint ends_with_slash (p : string) : bool :=
  match p with
  | "" => false
  | String c "" => is_slash c
  | String _ p' => ends_with_slash p'
  end.

(** [os.path.join] of a directory and a relative name. *)
Definition join (dir name : string) : string :=
  if bool_decide (dir = "") || ends_with_slash dir then dir +:+ name
  else dir +:+ "/" +:+ name.

Fixpoint strip_prefix (pre s : string) : option string :=
  match pre, s with
  | "", _ => Some s
  | String a pre', String b s' =>
      if bool_decide (a = b) then strip_prefix pre' s' else None
  | String _ _, "" => None
  end.

End Path.

(** ** The file system and the notebook's kernel *)

(** [fnmatch.fnmatch name pat] for patterns made of literal characters,
    [*] (any run of characters) and [?] (any one character); the
    notebook's only pattern is [*.ipynb]. *)
Fixpoint fnmatch (name pat : string) {struct pat} : bool :=
  match pat with
  | "" => bool_decide (name = "")
  | String c pat' =>
      if bool_decide (c = "*"%char) then
        (fix star (s : string) : bool :=
           fnmatch s pat' ||
           match s with
           | "" => false
           | String _ s' => star s'
           end) name
      else
        match name with
        | "" => false
        | String d name' =>
            (bool_decide (c = "?"%char) || bool_decide (c = d)) && fnmatch name' pat'
        end
  end.

(** [glob] skips the names that start with a dot unless the pattern does. *)
Definition is_hidden (name : string) : bool :=
  match name with
  | String "." _ => true
  | _ => false
  end.

(** The names of the regular files that sit directly in [dir]. *)
Definition entry_name (dir path : string) : option string :=
  name ← Path.strip_prefix (Path.join dir "") path;
  if bool_decide (name = "") || Path.contains_slash name then None else Some name.

Definition listdir (files : gmap string string) (dir : string) : list string :=
  omap (entry_name dir) (map_to_list files).*1.

(** [glob.glob pathname] where only the last component of [pathname]
    has wildcards: the directory is listed, the names are filtered, and
    each is joined to the directory again. *)
Definition glob (files : gmap string string) (pathname : string) : list string :=
  let dir := Path.dirname pathname in
  let pat := Path.basename pathname in
  Path.join dir <$>
    filter (λ name, fnmatch name pat && (is_hidden pat || negb (is_hidden name)))
           (listdir files dir).

(** [sorted] on strings.  The order is total and antisymmetric, so the
    sorted list does not depend on the sorting algorithm. *)
Definition sorted (l : list string) : list string := merge_sort String.le l.

Inductive event : Type :=
  | Stdout (line : string)
  | StdoutResponse (response : string)
      (* the line [The response was <repr(response)>.] *)
  | Prompt (message : string)
  | CopyFile (src dst : string)
  | Remove (path : string).

Inductive exn : Type :=
  | RuntimeError (message : string)
  | NameError (name : string)
  | FileNotFoundError (path : string)
  | SameFileError (src dst : string)
  | EOFError.

(** What a run can see and change: the regular files by absolute path,
    the lines waiting on the input stream, the module names bound in the
    kernel's global namespace, and what happened so far. *)
Record world : Type := World {
  files : gmap string string;
  stdin : list string;
  modules : gset string;
  log : list event;
}.

Inductive outcome (A : Type) : Type :=
  | Returned (a : A)
  | Raised (e : exn).
Arguments Returned {A} a.
Arguments Raised {A} e.

Definition exec (A : Type) : Type := world → world * outcome A.

#[global] Instance exec_ret : MRet exec := λ A a w, (w, Returned a).
#[global] Instance exec_bind : MBind exec := λ A B f m w,
  match m w with
  | (w', Returned a) => f a w'
  | (w', Raised e) => (w', Raised e)
  end.

Definition raise {A : Type} (e : exn) : exec A := λ w, (w, Raised e).

Definition emit (ev : event) : exec unit := λ w,
  (World (files w) (stdin w) (modules w) (log w ++ [ev]), Returned ()).

Definition print (line : string) : exec unit := emit (Stdout line).

(** [import m] *)
Definition import (m : string) : exec unit := λ w,
  (World (files w) (stdin w) ({[m]} ∪ modules w) (log w), Returned ()).

(** Evaluating the name of a module, as in [shutil.copyfile] or
    [os.remove]. *)
Definition module_name (m : string) : exec unit := λ w,
  if bool_decide (m ∈ modules w) then (w, Returned ()) else (w, Raised (NameError m)).

(** [open(path).read()] *)
Definition read_file (path : string) : exec string := λ w,
  match files w !! path with
  | Some text => (w, Returned text)
  | None => (w, Raised (FileNotFoundError path))
  end.

(** [input(message)] *)
Definition input (message : string) : exec string := λ w,
  match stdin w with
  | line :: rest =>
      (World (files w) rest (modules w) (log w ++ [Prompt message]), Returned line)
  | [] => (World (files w) [] (modules w) (log w ++ [Prompt message]), Raised EOFError)
  end.

(** [shutil.copyfile(src, dst)] *)
Definition copyfile (src dst : string) : exec unit := λ w,
  if bool_decide (src = dst) then (w, Raised (SameFileError src dst))
  else match files w !! src with
       | Some data =>
           (World (<[dst := data]> (files w)) (stdin w) (modules w)
                  (log w ++ [CopyFile src dst]), Returned ())
       | None => (w, Raised (FileNotFoundError src))
       end.

(** [os.remove(path)] *)
Definition remove (path : string) : exec unit := λ w,
  match files w !! path with
  | Some _ =>
      (World (delete path (files w)) (stdin w) (modules w)
             (log w ++ [Remove path]), Returned ())
  | None => (w, Raised (FileNotFoundError path))
  end.

(** [for x in items: body(x)] *)
Fixpoint for_each {A : Type} (items : list A) (body : A → exec unit) : exec unit :=
  match items with
  | [] => mret ()
  | x :: rest => body x;; for_each rest body
  end.

(** ** The first cell: the lists of files *)

Definition workspace_path (base : string) : string := "/work/" +:+ base.

Definition archive_path (base : string) : string :=
  "/opt/drake/share/drake/tutorials/" +:+ base.

Definition excluded_paths : list string :=
  ["/work/init.ipynb"; "/work/zzz_for_maintainers.ipynb"].

Definition released_paths (fs : gmap string string) : list string :=
  sorted (glob fs (archive_path "*.ipynb")).

Definition current_paths (fs : gmap string string) : list string :=
  sorted (filter (λ x, x ∉ excluded_paths) (glob fs (workspace_path "*.ipynb"))).

Definition released (fs : gmap string string) : list string :=
  Path.basename <$> released_paths fs.

Definition current (fs : gmap string string) : list string :=
  Path.basename <$> current_paths fs.

Definition refreshed (released current : list string) : list string :=
  filter (λ name, name ∈ released) current.

Definition added (released current : list string) : list string :=
  filter (λ name, name ∉ current) released.

Definition removed (released current : list string) : list string :=
  filter (λ name, name ∉ released) current.

Record plan : Type := Plan {
  plan_refreshed : list string;
  plan_added : list string;
  plan_removed : list string;
}.

Definition compute_plan (reference_ids working_ids : list string) : plan :=
  Plan (refreshed reference_ids working_ids)
       (added reference_ids working_ids)
       (removed reference_ids working_ids).

Definition print_list (heading : string) (items : list string) : exec unit :=
  print heading;;
  (if bool_decide (items = []) then print " (None)" else mret ());;
  for_each items (λ item, print ("- " +:+ item));;
  print "".

Definition cell1 : exec plan := λ w,
  let p := compute_plan (released (files w)) (current (files w)) in
  (print_list "Refreshed tutorials:" (plan_refreshed p);;
   print_list "Added tutorials:" (plan_added p);;
   print_list "Removed tutorials:" (plan_removed p);;
   mret p) w.

(** ** The second cell: confirmation, then copies and removals *)

Definition version_file : string := "/opt/drake/share/doc/drake/VERSION.TXT".

Definition confirm : exec unit :=
  import "shutil";;
  text ← read_file version_file;
  let yyyymmdd := String.substring 0 8 text in
  print ("Type 'yes' in the little box below to reset the tutorials notebooks to "
         +:+ yyyymmdd +:+ ", or anything else to cancel.");;
  response ← input "Proceed";
  emit (StdoutResponse response);;
  if bool_decide (response ≠ "yes") then raise (RuntimeError "Cancelled")
  else mret ().

(** The body of the loop [for base in to_copy]. *)
Definition copy_body (base : string) : exec unit :=
  print ("Updating " +:+ base);;
  module_name "shutil";;
  copyfile (archive_path base) (workspace_path base).

(** The body of the loop [for base in removed]. *)
Definition remove_body (base : string) : exec unit :=
  print ("Removing " +:+ base);;
  module_name "os";;
  remove (workspace_path base).

Definition apply_plan (p : plan) : exec unit :=
  let to_copy := plan_refreshed p ++ plan_added p in
  for_each to_copy copy_body;;
  for_each (plan_removed p) remove_body.

Definition cell2 (p : plan) : exec unit := confirm;; apply_plan p.

(** Both cells, run in order. *)
Definition notebook : exec unit := p ← cell1; cell2 p.

(** The file operations among the events of a log. *)
Definition is_file_op (ev : event) : bool :=
  match ev with
  | CopyFile _ _ | Remove _ => true
  | _ => false
  end.

Definition file_ops (l : list event) : list event := filter is_file_op l.

(** ** A small store to run the notebook on *)

Definition demo_files : gmap string string :=
  list_to_map [
    (archive_path "A.ipynb", "a1");
    (archive_path "B.ipynb", "b2");
    (workspace_path "B.ipynb", "b1");
    (workspace_path "C.ipynb", "c1");
    (version_file, "20221116-rest of the file")
  ].

Definition demo (answer : string) : world :=
  World demo_files [answer] ∅ [].

(** The tutorials of the run whose output the notebook keeps. *)
Definition recorded_names : list string :=
  ["authoring_multibody_simulation.ipynb";
   "debug_mathematical_program.ipynb";
   "dynamical_systems.ipynb";
   "index.ipynb";
   "licensed_solvers_deepnote.ipynb";
   "linear_program.ipynb";
   "mathematical_program.ipynb";
   "mathematical_program_multibody_plant.ipynb";
   "multibody_plant_autodiff_mass.ipynb";
   "nonlinear_program.ipynb";
   "pyplot_animation_multibody_plant.ipynb";
   "quadratic_program.ipynb";
   "rendering_multibody_plant.ipynb";
   "solver_parameters.ipynb";
   "sum_of_squares_optimization.ipynb";
   "updating_costs_and_constraints.ipynb"].

Definition recorded_files : gmap string string :=
  list_to_map
    (((λ name, (archive_path name, "released " +:+ name)) <$> recorded_names) ++
     ((λ name, (workspace_path name, "current " +:+ name)) <$> recorded_names) ++
     [(workspace_path "init.ipynb", "boot");
      (workspace_path "zzz_for_maintainers.ipynb", "this notebook");
      (version_file, "20221116000000 and the rest")]).

(** ** Descriptions used in the statements *)

(** A name that the pattern [*.ipynb] picks in a directory listing. *)
Definition is_tutorial_name (name : string) : bool :=
  negb (bool_decide (name = "")) && negb (Path.contains_slash name) &&
  fnmatch name "*.ipynb" && negb (is_hidden name).

(** The identifiers of a list, as a set. *)
Definition ids (l : list string) : gset string := list_to_set l.

(** The plan in the words of its description: the identifiers in both
    sets, those of the reference set only, those of the working set
    only. *)
Definition spec_refreshed (reference working : gset string) : gset string :=
  working ∩ reference.
Definition spec_added (reference working : gset string) : gset string :=
  reference ∖ working.
Definition spec_removed (reference working : gset string) : gset string :=
  working ∖ reference.

(** The world [w] after more events. *)
Definition logged (w : world) (evs : list event) : world :=
  World (files w) (stdin w) (modules w) (log w ++ evs).

(** The lines that [print_list] writes. *)
Definition print_list_lines (heading : string) (items : list string) : list event :=
  Stdout heading ::
  (if bool_decide (items = []) then [Stdout " (None)"] else []) ++
  ((λ item, Stdout ("- " +:+ item)) <$> items) ++ [Stdout ""].

Definition cell1_lines (p : plan) : list event :=
  print_list_lines "Refreshed tutorials:" (plan_refreshed p) ++
  print_list_lines "Added tutorials:" (plan_added p) ++
  print_list_lines "Removed tutorials:" (plan_removed p).

Definition confirm_lines (text answer : string) : list event :=
  [Stdout ("Type 'yes' in the little box below to reset the tutorials notebooks to "
           +:+ String.substring 0 8 text +:+ ", or anything else to cancel.");
   Prompt "Proceed";
   StdoutResponse answer].

(** The world after the version file was read and one line was taken
    from the input stream. *)
Definition asked (w : world) (text answer : string) (rest : list string) : world :=
  World (files w) rest ({["shutil"]} ∪ modules w) (log w ++ confirm_lines text answer).

(** The files after the released file of each identifier was copied over
    the workspace file of that identifier, in order. *)
Fixpoint copied (items : list string) (fs : gmap string string) : gmap string string :=
  match items with
  | [] => fs
  | base :: rest =>
      copied rest (match fs !! archive_path base with
                   | Some data => <[workspace_path base := data]> fs
                   | None => fs
                   end)
  end.

Definition copy_events (items : list string) : list event :=
  items ≫= λ base,
    [Stdout ("Updating " +:+ base);
     CopyFile (archive_path base) (workspace_path base)].

Definition copy_ops (items : list string) : list event :=
  (λ base, CopyFile (archive_path base) (workspace_path base)) <$> items.

Definition demo_same_files : gmap string string :=
  list_to_map [
    (archive_path "A.ipynb", "a2");
    (archive_path "B.ipynb", "b2");
    (workspace_path "A.ipynb", "a1");
    (workspace_path "B.ipynb", "b1");
    (workspace_path "init.ipynb", "boot");
    (version_file, "20221116")
  ].

Definition excluded_basenames : list string := Path.basename <$> excluded_paths.

Definition demo_excluded_files : gmap string string :=
  list_to_map [
    (archive_path "init.ipynb", "released boot");
    (archive_path "A.ipynb", "a2");
    (workspace_path "init.ipynb", "boot");
    (workspace_path "A.ipynb", "a1");
    (version_file, "20221116")
  ].


(** The files after the workspace file of each identifier was removed,
    in order. *)
Fixpoint deleted (items : list string) (fs : gmap string string) : gmap string string :=
  match items with
  | [] => fs
  | base :: rest => deleted rest (delete (workspace_path base) fs)
  end.

Definition remove_events (items : list string) : list event :=
  items ≫= λ base,
    [Stdout ("Removing " +:+ base); Remove (workspace_path base)].


(** A computation that, however it ends, leaves what is stored at
    [path] as it was. *)
Definition keeps_path {A : Type} (path : string) (m : exec A) : Prop :=
  ∀ w, files (m w).1 !! path = files w !! path.

(** A store where a tutorial comes new, none goes away, and the
    workspace has files that are no tutorials. *)
Definition demo_added_files : gmap string string :=
  list_to_map [
    (archive_path "A.ipynb", "a2");
    (archive_path "B.ipynb", "b2");
    (workspace_path "B.ipynb", "b1");
    (workspace_path "init.ipynb", "boot");
    (workspace_path "notes.txt", "notes");
    (workspace_path ".hidden.ipynb", "hidden");
    (version_file, "20221116")
  ].

(** The files a run that returns leaves behind: the plan's copies, then
    its removals. *)
Definition final_files (fs : gmap string string) : gmap string string :=
  let p := compute_plan (released fs) (current fs) in
  deleted (plan_removed p) (copied (plan_refreshed p ++ plan_added p) fs).

(** ** Strings and paths *)

Lemma append_cons (c : ascii) (s1 s2 : string) :
  String c s1 +:+ s2 = String c (s1 +:+ s2).
Proof. reflexivity. Qed.

Lemma append_nil_r (s : string) : s +:+ "" = s.
Proof. induction s as [|c s IH]; [done | by rewrite append_cons, IH]. Qed.

Lemma append_assoc (s1 s2 s3 : string) : (s1 +:+ s2) +:+ s3 = s1 +:+ (s2 +:+ s3).
Proof. induction s1 as [|c s1 IH]; [done | by rewrite !append_cons, IH]. Qed.

Lemma strip_prefix_Some (pre s r : string) :
  Path.strip_prefix pre s = Some r ↔ s = pre +:+ r.
Proof.
  revert s. induction pre as [|a pre IH]; intros s; simpl.
  - split; [by intros [= ->] | by intros ->].
  - destruct s as [|b s].
    + split; [done | discriminate].
    + case_bool_decide as Hab.
      * subst b. rewrite IH. split; [by intros -> | by intros [= ->]].
      * split; [done | intros [= ? ?]; by subst].
Qed.

Lemma join_append (dir name : string) :
  Path.join dir name = Path.join dir "" +:+ name.
Proof.
  unfold Path.join. destruct (_ || _).
  - by rewrite append_nil_r.
  - by rewrite !append_assoc.
Qed.

Lemma contains_slash_append (s1 s2 : string) :
  Path.contains_slash (s1 +:+ s2) = Path.contains_slash s1 || Path.contains_slash s2.
Proof.
  induction s1 as [|c s1 IH]; [done |].
  rewrite append_cons. simpl. rewrite IH. by destruct (Path.is_slash c).
Qed.

Lemma basename_no_slash (name : string) :
  Path.contains_slash name = false → Path.basename name = name.
Proof. destruct name as [|c name]; simpl; [done |]. by intros ->. Qed.

(** The base name of a path that ends in a slash and a name without a
    slash is that name. *)
Lemma basename_append (pre name : string) :
  Path.contains_slash name = false →
  Path.basename ((pre +:+ "/") +:+ name) = name.
Proof.
  intros Hname. induction pre as [|c pre IH].
  - change (("" +:+ "/") +:+ name) with (String "/" name). simpl.
    by apply basename_no_slash.
  - rewrite !append_cons. simpl.
    rewrite IH, !contains_slash_append. simpl.
    by rewrite orb_true_r, !orb_true_r.
Qed.

(** ** What [glob] returns *)

Lemma elem_of_listdir (fs : gmap string string) (dir name : string) :
  name ∈ listdir fs dir ↔
  is_Some (fs !! (Path.join dir "" +:+ name)) ∧ name ≠ "" ∧
  Path.contains_slash name = false.
Proof.
  unfold listdir. rewrite list_elem_of_omap. split.
  - intros (p & Hp & Hname). unfold entry_name in Hname.
    destruct (Path.strip_prefix _ p) as [r|] eqn:Hr; simpl in Hname; [|done].
    apply strip_prefix_Some in Hr. subst p.
    case_bool_decide as Hne; simpl in Hname; [done |].
    destruct (Path.contains_slash r) eqn:Hs; simplify_eq.
    split_and!; [|done..].
    apply list_elem_of_fmap in Hp as ([p x] & -> & Hpx).
    apply elem_of_map_to_list in Hpx. by exists x.
  - intros ([x Hx] & Hne & Hs). exists (Path.join dir "" +:+ name). split.
    + apply list_elem_of_fmap. exists (Path.join dir "" +:+ name, x).
      split; [done |]. by apply elem_of_map_to_list.
    + unfold entry_name.
      assert (Path.strip_prefix (Path.join dir "") (Path.join dir "" +:+ name)
              = Some name) as -> by by apply strip_prefix_Some.
      simpl. rewrite Hs, bool_decide_eq_false_2 by done. done.
Qed.

Lemma elem_of_glob (fs : gmap string string) (pathname p : string) :
  p ∈ glob fs pathname ↔
  ∃ name, p = Path.join (Path.dirname pathname) name ∧ is_Some (fs !! p) ∧
          name ≠ "" ∧ Path.contains_slash name = false ∧
          fnmatch name (Path.basename pathname) &&
            (is_hidden (Path.basename pathname) || negb (is_hidden name)) = true.
Proof.
  unfold glob. rewrite list_elem_of_fmap. split.
  - intros (name & -> & Hin). apply list_elem_of_filter in Hin as [Hm Hin].
    apply elem_of_listdir in Hin as (Hsome & Hne & Hs).
    exists name. rewrite join_append. split_and!; try done.
    by apply Is_true_true.
  - intros (name & -> & Hsome & Hne & Hs & Hm). exists name. split; [done |].
    apply list_elem_of_filter. split; [by apply Is_true_true |].
    apply elem_of_listdir. by rewrite <- join_append.
Qed.

Lemma basename_archive_path (name : string) :
  Path.contains_slash name = false → Path.basename (archive_path name) = name.
Proof. apply (basename_append "/opt/drake/share/drake/tutorials"). Qed.

Lemma basename_workspace_path (name : string) :
  Path.contains_slash name = false → Path.basename (workspace_path name) = name.
Proof. apply (basename_append "/work"). Qed.

Lemma is_tutorial_name_spec (name : string) :
  is_tutorial_name name = true ↔
  name ≠ "" ∧ Path.contains_slash name = false ∧
  fnmatch name "*.ipynb" && (is_hidden "*.ipynb" || negb (is_hidden name)) = true.
Proof.
  unfold is_tutorial_name. change (is_hidden "*.ipynb") with false.
  rewrite orb_false_l, !andb_true_iff, !negb_true_iff, bool_decide_eq_false.
  naive_solver.
Qed.

Lemma elem_of_released_paths (fs : gmap string string) (p : string) :
  p ∈ released_paths fs ↔
  ∃ name, p = archive_path name ∧ is_Some (fs !! p) ∧ is_tutorial_name name = true.
Proof.
  unfold released_paths, sorted. rewrite merge_sort_Permutation, elem_of_glob.
  by setoid_rewrite is_tutorial_name_spec.
Qed.

Lemma elem_of_current_paths (fs : gmap string string) (p : string) :
  p ∈ current_paths fs ↔
  ∃ name, p = workspace_path name ∧ is_Some (fs !! p) ∧
          is_tutorial_name name = true ∧ p ∉ excluded_paths.
Proof.
  unfold current_paths, sorted.
  rewrite merge_sort_Permutation, list_elem_of_filter, elem_of_glob.
  setoid_rewrite is_tutorial_name_spec. naive_solver.
Qed.

Lemma is_tutorial_name_no_slash (name : string) :
  is_tutorial_name name = true → Path.contains_slash name = false.
Proof. rewrite is_tutorial_name_spec. naive_solver. Qed.

(** The released identifiers are the tutorial names of the archive. *)
Lemma elem_of_released (fs : gmap string string) (name : string) :
  name ∈ released fs ↔
  is_Some (fs !! archive_path name) ∧ is_tutorial_name name = true.
Proof.
  unfold released. rewrite list_elem_of_fmap. split.
  - intros (p & -> & Hp). apply elem_of_released_paths in Hp as (n & -> & ? & Hn).
    by rewrite basename_archive_path by by apply is_tutorial_name_no_slash.
  - intros [Hsome Hn]. exists (archive_path name). split.
    + by rewrite basename_archive_path by by apply is_tutorial_name_no_slash.
    + apply elem_of_released_paths. by exists name.
Qed.

(** The current identifiers are the tutorial names of the workspace
    whose path is not one of the two excluded paths. *)
Lemma elem_of_current (fs : gmap string string) (name : string) :
  name ∈ current fs ↔
  is_Some (fs !! workspace_path name) ∧ is_tutorial_name name = true ∧
  workspace_path name ∉ excluded_paths.
Proof.
  unfold current. rewrite list_elem_of_fmap. split.
  - intros (p & -> & Hp).
    apply elem_of_current_paths in Hp as (n & -> & ? & Hn & ?).
    by rewrite basename_workspace_path by by apply is_tutorial_name_no_slash.
  - intros (Hsome & Hn & Hex). exists (workspace_path name). split.
    + by rewrite basename_workspace_path by by apply is_tutorial_name_no_slash.
    + apply elem_of_current_paths. by exists name.
Qed.

(** ** The three lists *)

Section plan_lists.
Context (reference_ids working_ids : list string).

Lemma elem_of_refreshed (name : string) :
  name ∈ refreshed reference_ids working_ids ↔
  name ∈ working_ids ∧ name ∈ reference_ids.
Proof. unfold refreshed. rewrite list_elem_of_filter. tauto. Qed.

Lemma elem_of_added (name : string) :
  name ∈ added reference_ids working_ids ↔
  name ∈ reference_ids ∧ name ∉ working_ids.
Proof. unfold added. rewrite list_elem_of_filter. tauto. Qed.

Lemma elem_of_removed (name : string) :
  name ∈ removed reference_ids working_ids ↔
  name ∈ working_ids ∧ name ∉ reference_ids.
Proof. unfold removed. rewrite list_elem_of_filter. tauto. Qed.
End plan_lists.

Lemma elem_of_ids (l : list string) (name : string) : name ∈ ids l ↔ name ∈ l.
Proof. apply elem_of_list_to_set. Qed.

(** C1: for every pair of identifier lists, the three lists of the plan
    are pairwise disjoint and together hold exactly the identifiers of
    the two inputs, so that every identifier of either input is in
    exactly one of the three. *)
Theorem plan_partition (reference_ids working_ids : list string) :
  let p := compute_plan reference_ids working_ids in
  ids (plan_refreshed p) ## ids (plan_added p) ∧
  ids (plan_refreshed p) ## ids (plan_removed p) ∧
  ids (plan_added p) ## ids (plan_removed p) ∧
  ids (plan_refreshed p) ∪ ids (plan_added p) ∪ ids (plan_removed p)
    = ids working_ids ∪ ids reference_ids ∧
  ∀ name, name ∈ working_ids ∨ name ∈ reference_ids →
    (name ∈ plan_refreshed p ∧ (name ∉ plan_added p) ∧ (name ∉ plan_removed p)) ∨
    ((name ∉ plan_refreshed p) ∧ name ∈ plan_added p ∧ (name ∉ plan_removed p)) ∨
    ((name ∉ plan_refreshed p) ∧ (name ∉ plan_added p) ∧ name ∈ plan_removed p).
Proof.
  simpl. split_and!.
  - intros name. rewrite !elem_of_ids, elem_of_refreshed, elem_of_added. tauto.
  - intros name. rewrite !elem_of_ids, elem_of_refreshed, elem_of_removed. tauto.
  - intros name. rewrite !elem_of_ids, elem_of_added, elem_of_removed. tauto.
  - apply set_eq. intros name.
    rewrite !elem_of_union, !elem_of_ids, elem_of_refreshed, elem_of_added,
      elem_of_removed.
    destruct (decide (name ∈ working_ids)), (decide (name ∈ reference_ids)); tauto.
  - intros name. rewrite elem_of_refreshed, elem_of_added, elem_of_removed.
    destruct (decide (name ∈ working_ids)), (decide (name ∈ reference_ids)); tauto.
Qed.

(** ** Running the cells *)

Lemma bind_returned {A B : Type} (m : exec A) (f : A → exec B) (w w' : world) (a : A) :
  m w = (w', Returned a) → (m ≫= f) w = f a w'.
Proof. intros H. unfold mbind, exec_bind. by rewrite H. Qed.

Lemma bind_raised {A B : Type} (m : exec A) (f : A → exec B) (w w' : world) (e : exn) :
  m w = (w', Raised e) → (m ≫= f) w = (w', Raised e).
Proof. intros H. unfold mbind, exec_bind. by rewrite H. Qed.

Lemma logged_nil (w : world) : logged w [] = w.
Proof. destruct w. unfold logged. simpl. by rewrite app_nil_r. Qed.

Lemma logged_logged (w : world) (evs1 evs2 : list event) :
  logged (logged w evs1) evs2 = logged w (evs1 ++ evs2).
Proof. unfold logged. simpl. by rewrite app_assoc. Qed.

Lemma print_run (line : string) (w : world) :
  print line w = (logged w [Stdout line], Returned ()).
Proof. reflexivity. Qed.

Lemma for_each_print (f : string → string) (items : list string) (w : world) :
  for_each items (λ item, print (f item)) w
  = (logged w ((λ item, Stdout (f item)) <$> items), Returned ()).
Proof.
  revert w. induction items as [|item items IH]; intros w; simpl.
  - by rewrite logged_nil.
  - erewrite bind_returned by apply print_run. by rewrite IH, logged_logged.
Qed.

Lemma print_list_run (heading : string) (items : list string) (w : world) :
  print_list heading items w
  = (logged w (print_list_lines heading items), Returned ()).
Proof.
  unfold print_list, print_list_lines.
  erewrite bind_returned by apply print_run.
  case_bool_decide.
  - erewrite bind_returned by apply print_run.
    erewrite bind_returned by apply for_each_print.
    by rewrite print_run, !logged_logged.
  - erewrite bind_returned by reflexivity.
    erewrite bind_returned by apply for_each_print.
    by rewrite print_run, !logged_logged.
Qed.

(** The first cell always returns: it computes the plan from the files
    and writes its three lists, and changes nothing else. *)
Lemma cell1_run (w : world) :
  let p := compute_plan (released (files w)) (current (files w)) in
  cell1 w = (logged w (cell1_lines p), Returned p).
Proof.
  intros p. unfold cell1. fold p.
  erewrite bind_returned by apply print_list_run.
  erewrite bind_returned by apply print_list_run.
  erewrite bind_returned by apply print_list_run.
  unfold cell1_lines. by rewrite !logged_logged.
Qed.

Lemma file_ops_app (l1 l2 : list event) :
  file_ops (l1 ++ l2) = file_ops l1 ++ file_ops l2.
Proof. apply filter_app. Qed.

Lemma file_ops_stdout (f : string → string) (items : list string) :
  file_ops ((λ item, Stdout (f item)) <$> items) = [].
Proof. induction items as [|item items IH]; [done | by simpl]. Qed.

Lemma file_ops_print_list (heading : string) (items : list string) :
  file_ops (print_list_lines heading items) = [].
Proof.
  unfold print_list_lines.
  change (Stdout heading :: ?l) with ([Stdout heading] ++ l).
  rewrite !file_ops_app, file_ops_stdout. by case_bool_decide.
Qed.

Lemma file_ops_cell1 (p : plan) : file_ops (cell1_lines p) = [].
Proof. unfold cell1_lines. by rewrite !file_ops_app, !file_ops_print_list. Qed.

(** C2: the plan is a function of the two lists alone: [refreshed] holds
    the identifiers of both lists, [added] those of the reference list
    that are not in the working list, [removed] those of the working
    list that are not in the reference list; two empty lists give three
    empty lists; and the cell that computes it always returns, with the
    files, the input stream and the bound modules as they were and no
    file operation performed. *)
Theorem plan_meaning (reference_ids working_ids : list string) :
  let p := compute_plan reference_ids working_ids in
  ids (plan_refreshed p) = spec_refreshed (ids reference_ids) (ids working_ids) ∧
  ids (plan_added p) = spec_added (ids reference_ids) (ids working_ids) ∧
  ids (plan_removed p) = spec_removed (ids reference_ids) (ids working_ids) ∧
  compute_plan [] [] = Plan [] [] [] ∧
  ∀ w : world, ∃ evs,
    cell1 w = (World (files w) (stdin w) (modules w) (log w ++ evs),
               Returned (compute_plan (released (files w)) (current (files w)))) ∧
    file_ops evs = [].
Proof.
  simpl. split_and!.
  - apply set_eq. intros name. unfold spec_refreshed.
    by rewrite elem_of_intersection, !elem_of_ids, elem_of_refreshed.
  - apply set_eq. intros name. unfold spec_added.
    by rewrite elem_of_difference, !elem_of_ids, elem_of_added.
  - apply set_eq. intros name. unfold spec_removed.
    by rewrite elem_of_difference, !elem_of_ids, elem_of_removed.
  - reflexivity.
  - intros w. eexists. split; [apply cell1_run | apply file_ops_cell1].
Qed.

(** C7: with the released identifiers A.ipynb and B.ipynb and the
    working identifiers B.ipynb and C.ipynb, [refreshed] is B.ipynb,
    [added] is A.ipynb and [removed] is C.ipynb; a store with these
    files and none of the excluded ones gives these lists. *)
Theorem plan_example :
  compute_plan ["A.ipynb"; "B.ipynb"] ["B.ipynb"; "C.ipynb"]
    = Plan ["B.ipynb"] ["A.ipynb"] ["C.ipynb"] ∧
  released demo_files = ["A.ipynb"; "B.ipynb"] ∧
  current demo_files = ["B.ipynb"; "C.ipynb"] ∧
  (cell1 (demo "yes")).2 = Returned (Plan ["B.ipynb"] ["A.ipynb"] ["C.ipynb"]).
Proof. split_and!; by vm_compute. Qed.

(** ** The confirmation *)

Lemma confirm_run (w : world) (text answer : string) (rest : list string) :
  files w !! version_file = Some text →
  stdin w = answer :: rest →
  confirm w = (asked w text answer rest,
               if bool_decide (answer = "yes") then Returned ()
               else Raised (RuntimeError "Cancelled")).
Proof.
  intros Hversion Hstdin.
  unfold confirm, mbind, exec_bind, import, read_file, print, emit, input, raise, mret,
    exec_ret; simpl.
  rewrite Hversion, Hstdin; simpl.
  unfold asked, confirm_lines.
  case_bool_decide as Hne; case_bool_decide as Heq; try done;
    by rewrite <- !app_assoc.
Qed.

(** Whatever the files and the input stream hold, the confirmation
    leaves every file as it was and performs no file operation. *)
Lemma confirm_keeps_files (w : world) :
  files (confirm w).1 = files w ∧ file_ops (log (confirm w).1) = file_ops (log w).
Proof.
  unfold confirm, mbind, exec_bind, import, read_file, print, emit, input, raise, mret,
    exec_ret; simpl.
  destruct (files w !! version_file) as [text|]; simpl; [|done].
  destruct (stdin w) as [|answer rest]; simpl.
  - split; [done |]. rewrite !file_ops_app. simpl. by rewrite !app_nil_r.
  - case_bool_decide; simpl; (split; [done |]);
      rewrite !file_ops_app; simpl; by rewrite !app_nil_r.
Qed.

(** ** The copies and the removals *)

Lemma apply_plan_unfold (p : plan) :
  apply_plan p
  = (for_each (plan_refreshed p ++ plan_added p) copy_body;;
     for_each (plan_removed p) remove_body).
Proof. reflexivity. Qed.

Lemma workspace_archive_ne (b1 b2 : string) : workspace_path b1 ≠ archive_path b2.
Proof. unfold workspace_path, archive_path. intros H. by vm_compute in H. Qed.

#[global] Instance workspace_path_inj : Inj (=) (=) workspace_path.
Proof. intros b1 b2 H. by apply (inj (String.app "/work/")) in H. Qed.

#[global] Instance archive_path_inj : Inj (=) (=) archive_path.
Proof.
  intros b1 b2 H.
  by apply (inj (String.app "/opt/drake/share/drake/tutorials/")) in H.
Qed.

Lemma copied_lookup_archive (items : list string) (fs : gmap string string) (b : string) :
  copied items fs !! archive_path b = fs !! archive_path b.
Proof.
  revert fs. induction items as [|base items IH]; intros fs; simpl; [done |].
  rewrite IH. destruct (fs !! archive_path base); [|done].
  apply lookup_insert_ne, workspace_archive_ne.
Qed.

Lemma copied_lookup_other (items : list string) (fs : gmap string string) (path : string) :
  (∀ b, b ∈ items → path ≠ workspace_path b) →
  copied items fs !! path = fs !! path.
Proof.
  revert fs. induction items as [|base items IH]; intros fs Hpath; simpl; [done |].
  rewrite IH by (intros b Hb; apply Hpath; by right).
  destruct (fs !! archive_path base); [|done].
  apply lookup_insert_ne. intros Heq. by apply (Hpath base); [left |].
Qed.

Lemma copied_lookup_workspace (items : list string) (fs : gmap string string) (b : string) :
  b ∈ items → is_Some (fs !! archive_path b) →
  copied items fs !! workspace_path b = fs !! archive_path b.
Proof.
  revert fs. induction items as [|base items IH]; intros fs Hb Hsome.
  - by apply elem_of_nil in Hb.
  - simpl. destruct (decide (b ∈ items)) as [Hin|Hnotin].
    + rewrite IH; [| done |].
      * destruct (fs !! archive_path base); [|done].
        apply lookup_insert_ne, workspace_archive_ne.
      * destruct (fs !! archive_path base); [|done].
        by rewrite lookup_insert_ne by apply workspace_archive_ne.
    + apply elem_of_cons in Hb as [->|Hb]; [|done].
      rewrite copied_lookup_other
        by (intros b' Hb' Heq; apply (inj workspace_path) in Heq; by subst).
      destruct Hsome as [data Hdata]. rewrite Hdata. apply lookup_insert_eq.
Qed.

(** Copies never take a path away. *)
Lemma copied_lookup_is_Some (items : list string) (fs : gmap string string) (path : string) :
  is_Some (fs !! path) → is_Some (copied items fs !! path).
Proof.
  revert fs. induction items as [|base items IH]; intros fs Hsome; simpl; [done |].
  apply IH. destruct (fs !! archive_path base) as [data|]; [|done].
  destruct (decide (workspace_path base = path)) as [<-|Hne].
  - rewrite lookup_insert_eq. by exists data.
  - by rewrite lookup_insert_ne.
Qed.

Lemma copy_body_run (base data : string) (w : world) :
  "shutil" ∈ modules w →
  files w !! archive_path base = Some data →
  copy_body base w
  = (World (<[workspace_path base := data]> (files w)) (stdin w) (modules w)
           (log w ++ [Stdout ("Updating " +:+ base);
                      CopyFile (archive_path base) (workspace_path base)]),
     Returned ()).
Proof.
  intros Hshutil Hdata.
  unfold copy_body, mbind, exec_bind, print, emit, module_name, copyfile; simpl.
  rewrite bool_decide_eq_true_2 by done. simpl.
  rewrite Hdata. by rewrite <- app_assoc.
Qed.

(** When every released file to copy is there, the copy loop runs to its
    end. *)
Lemma copy_loop_run (items : list string) (w : world) :
  "shutil" ∈ modules w →
  (∀ b, b ∈ items → is_Some (files w !! archive_path b)) →
  for_each items copy_body w
  = (World (copied items (files w)) (stdin w) (modules w)
           (log w ++ copy_events items), Returned ()).
Proof.
  revert w. induction items as [|base items IH]; intros w Hshutil Hsrc.
  - simpl. unfold mret, exec_ret. destruct w. simpl. by rewrite app_nil_r.
  - destruct (Hsrc base) as [data Hdata]; [by left |].
    cbn [for_each]. erewrite bind_returned by (by apply copy_body_run).
    rewrite IH; cbn [files stdin modules log]; [| done |].
    + cbn [copied]. rewrite Hdata. unfold copy_events. rewrite bind_cons.
      by rewrite <- app_assoc.
    + intros b Hb. rewrite lookup_insert_ne by apply workspace_archive_ne.
      apply Hsrc. by right.
Qed.

Lemma file_ops_copy_events (items : list string) :
  file_ops (copy_events items)
  = (λ base, CopyFile (archive_path base) (workspace_path base)) <$> items.
Proof.
  unfold copy_events. induction items as [|base items IH]; [done |].
  rewrite bind_cons, file_ops_app, IH. reflexivity.
Qed.

(** With no module bound to the name [os], the first removal stops the
    loop before anything is removed. *)
Lemma remove_loop_unbound (base : string) (rest : list string) (w : world) :
  "os" ∉ modules w →
  for_each (base :: rest) remove_body w
  = (logged w [Stdout ("Removing " +:+ base)], Raised (NameError "os")).
Proof.
  intros Hos. simpl.
  unfold remove_body, mbind, exec_bind, print, emit, module_name; simpl.
  by rewrite bool_decide_eq_false_2 by done.
Qed.

Lemma cell2_aborts (p : plan) (w : world) (e : exn) :
  (confirm w).2 = Raised e → cell2 p w = ((confirm w).1, Raised e).
Proof.
  intros H. unfold cell2. destruct (confirm w) as [w' r] eqn:Hc.
  simpl in H. subst r. by rewrite (bind_raised _ _ _ _ _ Hc).
Qed.

Lemma cell2_proceeds (p : plan) (w : world) :
  (confirm w).2 = Returned () → cell2 p w = apply_plan p (confirm w).1.
Proof.
  intros H. unfold cell2. destruct (confirm w) as [w' r] eqn:Hc.
  simpl in H. subst r. by rewrite (bind_returned _ _ _ _ _ Hc).
Qed.

(** Every identifier to copy is a released one, so its released file is
    there. *)
Lemma plan_sources_exist (fs : gmap string string) (b : string) :
  let p := compute_plan (released fs) (current fs) in
  b ∈ plan_refreshed p ++ plan_added p → is_Some (fs !! archive_path b).
Proof.
  simpl. rewrite elem_of_app, elem_of_refreshed, elem_of_added.
  intros [[_ Hb]|[Hb _]]; by apply elem_of_released in Hb as [? _].
Qed.

Lemma dom_copied (items : list string) (fs : gmap string string) :
  (∀ b, b ∈ items → is_Some (fs !! workspace_path b)) →
  dom (copied items fs) = dom fs.
Proof.
  revert fs. induction items as [|base items IH]; intros fs Hdst; [done |].
  cbn [copied]. destruct (fs !! archive_path base) as [data|] eqn:Hdata.
  - rewrite IH.
    + rewrite dom_insert_L.
      assert (workspace_path base ∈ dom fs)
        by (apply elem_of_dom, Hdst; by left).
      set_solver.
    + intros b Hb. destruct (decide (workspace_path base = workspace_path b)) as [->|Hne].
      * rewrite lookup_insert_eq. by eexists.
      * rewrite lookup_insert_ne by done. apply Hdst. by right.
  - apply IH. intros b Hb. apply Hdst. by right.
Qed.

Lemma filter_all {A : Type} (P : A → Prop) `{!∀ x, Decision (P x)} (l : list A) :
  (∀ x, x ∈ l → P x) → filter P l = l.
Proof.
  induction l as [|x l IH]; intros Hall; [done |].
  rewrite filter_cons_True by (apply Hall; by left).
  f_equal. apply IH. intros y Hy. apply Hall. by right.
Qed.

Lemma filter_none {A : Type} (P : A → Prop) `{!∀ x, Decision (P x)} (l : list A) :
  (∀ x, x ∈ l → ¬ P x) → filter P l = [].
Proof.
  induction l as [|x l IH]; intros Hall; [done |].
  rewrite filter_cons_False by (apply Hall; by left).
  apply IH. intros y Hy. apply Hall. by right.
Qed.

Lemma compute_plan_same_ids (reference_ids working_ids : list string) :
  (∀ name, name ∈ reference_ids ↔ name ∈ working_ids) →
  compute_plan reference_ids working_ids = Plan working_ids [] [].
Proof.
  intros Hsame. unfold compute_plan, refreshed, added, removed. f_equal.
  - apply filter_all. intros name Hname. by apply Hsame.
  - apply filter_none. intros name Hname Hnot. by apply Hnot, Hsame.
  - apply filter_none. intros name Hname Hnot. by apply Hnot, Hsame.
Qed.

(** Sorting forgets the order in which a directory was listed. *)
Lemma sorted_Permutation (l1 l2 : list string) : l1 ≡ₚ l2 → sorted l1 = sorted l2.
Proof.
  intros Hperm. unfold sorted. apply (Sorted_unique String.le).
  - apply Sorted_merge_sort, _.
  - apply Sorted_merge_sort, _.
  - by rewrite !merge_sort_Permutation.
Qed.

(** On the word yes the second cell goes on with the copies and the
    removals. *)
Lemma cell2_on_yes (p : plan) (w : world) (text : string) (rest : list string) :
  files w !! version_file = Some text →
  stdin w = "yes" :: rest →
  cell2 p w = apply_plan p (asked w text "yes" rest).
Proof.
  intros Hversion Hstdin.
  pose proof (confirm_run w text "yes" rest Hversion Hstdin) as Hrun.
  rewrite bool_decide_eq_true_2 in Hrun by done.
  rewrite cell2_proceeds; by rewrite Hrun.
Qed.

(** On any other line it stops there. *)
Lemma cell2_on_other
    (p : plan) (w : world) (text answer : string) (rest : list string) :
  files w !! version_file = Some text →
  stdin w = answer :: rest →
  answer ≠ "yes" →
  cell2 p w = (asked w text answer rest, Raised (RuntimeError "Cancelled")).
Proof.
  intros Hversion Hstdin Hne.
  pose proof (confirm_run w text answer rest Hversion Hstdin) as Hrun.
  rewrite bool_decide_eq_false_2 in Hrun by done.
  rewrite (cell2_aborts p w (RuntimeError "Cancelled")); by rewrite Hrun.
Qed.

(** With a module bound to the name [os], a removal takes the file out
    of the workspace. *)
Lemma remove_body_run (base data : string) (w : world) :
  "os" ∈ modules w →
  files w !! workspace_path base = Some data →
  remove_body base w
  = (World (delete (workspace_path base) (files w)) (stdin w) (modules w)
           (log w ++ [Stdout ("Removing " +:+ base); Remove (workspace_path base)]),
     Returned ()).
Proof.
  intros Hos Hdata.
  unfold remove_body, mbind, exec_bind, print, emit, module_name, remove; simpl.
  rewrite bool_decide_eq_true_2 by done. simpl.
  rewrite Hdata. by rewrite <- app_assoc.
Qed.

(** ** The confirmation gate *)

(** The claim that the line typed must be the version string fails: on
    the small store the version string is 20221116, the line typed is
    yes, and the confirmation returns. *)
Lemma confirm_not_version_string :
  ¬ (∀ (w : world) (text answer : string) (rest : list string),
       files w !! version_file = Some text →
       stdin w = answer :: rest →
       (confirm w).2 = Returned () →
       answer = String.substring 0 8 text).
Proof.
  intros H.
  specialize (H (demo "yes") "20221116-rest of the file" "yes" []).
  by vm_compute in H; specialize (H eq_refl eq_refl eq_refl).
Qed.

(** C3, as the code has it: the confirmation takes one line from the
    input stream and returns exactly when that line is the word yes,
    whatever the version string is; on any other line it raises the
    error Cancelled, nothing of the rest of the cell runs, every file is
    as it was and no file operation was performed. *)
Theorem confirm_gate (w : world) (text answer : string) (rest : list string) :
  files w !! version_file = Some text →
  stdin w = answer :: rest →
  stdin (confirm w).1 = rest ∧
  ((confirm w).2 = Returned () ↔ answer = "yes") ∧
  (answer ≠ "yes" →
     (confirm w).2 = Raised (RuntimeError "Cancelled") ∧
     ∀ p, cell2 p w = ((confirm w).1, Raised (RuntimeError "Cancelled"))) ∧
  files (confirm w).1 = files w ∧
  file_ops (log (confirm w).1) = file_ops (log w).
Proof.
  intros Hversion Hstdin.
  pose proof (confirm_keeps_files w) as [Hfiles Hops].
  rewrite (confirm_run w text answer rest Hversion Hstdin) in *. simpl.
  split_and!; try done.
  - case_bool_decide; naive_solver.
  - intros Hne. rewrite bool_decide_eq_false_2 by done. split; [done |].
    intros p. rewrite (cell2_aborts p w (RuntimeError "Cancelled")).
    + by rewrite (confirm_run w text answer rest Hversion Hstdin).
    + rewrite (confirm_run w text answer rest Hversion Hstdin). simpl.
      by rewrite bool_decide_eq_false_2.
Qed.

Lemma confirm_gate_witness :
  stdin (confirm (demo "20221116")).1 = [] ∧
  ((confirm (demo "20221116")).2 = Returned () ↔ "20221116" = "yes") ∧
  ("20221116" ≠ "yes" →
     (confirm (demo "20221116")).2 = Raised (RuntimeError "Cancelled") ∧
     ∀ p, cell2 p (demo "20221116")
          = ((confirm (demo "20221116")).1, Raised (RuntimeError "Cancelled"))) ∧
  files (confirm (demo "20221116")).1 = files (demo "20221116") ∧
  file_ops (log (confirm (demo "20221116")).1) = file_ops (log (demo "20221116")).
Proof.
  apply (confirm_gate (demo "20221116") "20221116-rest of the file" "20221116" []);
    reflexivity.
Defined.

(** C4: the line typed is compared with the word yes, exactly and with
    its case: on yes the cell goes on to the copies and removals; on any
    other line, the version string included, it raises the error
    Cancelled at once, with every file as it was and no copy and no
    removal attempted. *)
Theorem cell2_yes_or_cancelled
    (p : plan) (w : world) (text answer : string) (rest : list string) :
  files w !! version_file = Some text →
  stdin w = answer :: rest →
  (answer = "yes" → cell2 p w = apply_plan p (asked w text "yes" rest)) ∧
  (answer ≠ "yes" →
     cell2 p w = (asked w text answer rest, Raised (RuntimeError "Cancelled")) ∧
     files (asked w text answer rest) = files w ∧
     file_ops (log (asked w text answer rest)) = file_ops (log w)) ∧
  (String.substring 0 8 text ≠ "yes" → answer = String.substring 0 8 text →
     (cell2 p w).2 = Raised (RuntimeError "Cancelled")).
Proof.
  intros Hversion Hstdin. split_and!.
  - intros ->. by apply cell2_on_yes.
  - intros Hne. split_and!; [by apply cell2_on_other | done |].
    unfold asked, confirm_lines. simpl. rewrite file_ops_app. simpl.
    by rewrite app_nil_r.
  - intros Hne ->.
    by rewrite (cell2_on_other p w text (String.substring 0 8 text) rest).
Qed.

Lemma cell2_yes_or_cancelled_witness :
  let p := Plan ["B.ipynb"] ["A.ipynb"] ["C.ipynb"] in
  let text := "20221116-rest of the file" in
  ("Yes" = "yes" → cell2 p (demo "Yes") = apply_plan p (asked (demo "Yes") text "yes" [])) ∧
  ("Yes" ≠ "yes" →
     cell2 p (demo "Yes")
       = (asked (demo "Yes") text "Yes" [], Raised (RuntimeError "Cancelled")) ∧
     files (asked (demo "Yes") text "Yes" []) = files (demo "Yes") ∧
     file_ops (log (asked (demo "Yes") text "Yes" [])) = file_ops (log (demo "Yes"))) ∧
  (String.substring 0 8 text ≠ "yes" → "Yes" = String.substring 0 8 text →
     (cell2 p (demo "Yes")).2 = Raised (RuntimeError "Cancelled")).
Proof.
  apply (cell2_yes_or_cancelled (Plan ["B.ipynb"] ["A.ipynb"] ["C.ipynb"])
           (demo "Yes") "20221116-rest of the file" "Yes" []); reflexivity.
Defined.

(** ** Copies and removals *)

(** C10: the second cell imports [shutil] only, so when no module is
    bound to the name [os] beforehand and the plan has something to
    remove, the cell raises a name error for [os] once every copy is
    done and before anything is removed: each copied identifier has the
    released content in the workspace, the file operations performed are
    the copies, and every path that was there is still there. *)
Theorem cell2_unbound_os (p : plan) (w : world) (text : string) (rest : list string) :
  "os" ∉ modules w →
  files w !! version_file = Some text →
  stdin w = "yes" :: rest →
  (∀ b, b ∈ plan_refreshed p ++ plan_added p → is_Some (files w !! archive_path b)) →
  plan_removed p ≠ [] →
  ∃ w', cell2 p w = (w', Raised (NameError "os")) ∧
        files w' = copied (plan_refreshed p ++ plan_added p) (files w) ∧
        file_ops (log w') = file_ops (log w) ++ copy_ops (plan_refreshed p ++ plan_added p) ∧
        (∀ b, b ∈ plan_refreshed p ++ plan_added p →
              files w' !! workspace_path b = files w !! archive_path b) ∧
        (∀ path, is_Some (files w !! path) → is_Some (files w' !! path)).
Proof.
  intros Hos Hversion Hstdin Hsrc Hremoved.
  rewrite (cell2_on_yes p w text rest Hversion Hstdin).
  rewrite apply_plan_unfold.
  erewrite bind_returned; last first.
  { apply copy_loop_run; simpl; [set_solver | done]. }
  destruct (plan_removed p) as [|base more]; [done |].
  rewrite remove_loop_unbound by (simpl; set_solver).
  eexists. split; [reflexivity |]. simpl. split_and!.
  - done.
  - rewrite !file_ops_app, file_ops_copy_events. simpl. by rewrite !app_nil_r.
  - intros b Hb. by apply copied_lookup_workspace; [| apply Hsrc].
  - intros path. apply copied_lookup_is_Some.
Qed.

Lemma cell2_unbound_os_witness :
  ∃ w', cell2 (Plan ["B.ipynb"] ["A.ipynb"] ["C.ipynb"]) (demo "yes")
          = (w', Raised (NameError "os")) ∧
        files w' = copied ["B.ipynb"; "A.ipynb"] demo_files ∧
        file_ops (log w') = copy_ops ["B.ipynb"; "A.ipynb"] ∧
        (∀ b, b ∈ ["B.ipynb"; "A.ipynb"] →
              files w' !! workspace_path b = demo_files !! archive_path b) ∧
        (∀ path, is_Some (demo_files !! path) → is_Some (files w' !! path)).
Proof.
  apply (cell2_unbound_os (Plan ["B.ipynb"] ["A.ipynb"] ["C.ipynb"]) (demo "yes")
           "20221116-rest of the file" []).
  - simpl. set_solver.
  - reflexivity.
  - reflexivity.
  - simpl. intros b Hb.
    apply elem_of_cons in Hb as [->|Hb]; [by eexists |].
    apply list_elem_of_singleton in Hb as ->. by eexists.
  - discriminate.
Defined.

(** C5 on the small store: B.ipynb is refreshed, A.ipynb is added and
    C.ipynb is to be removed; the run ends in a name error for [os] after
    the two copies, and C.ipynb is still in the workspace. *)
Theorem apply_leaves_removed_entry :
  (cell1 (demo "yes")).2 = Returned (Plan ["B.ipynb"] ["A.ipynb"] ["C.ipynb"]) ∧
  (notebook (demo "yes")).2 = Raised (NameError "os") ∧
  file_ops (log (notebook (demo "yes")).1) = copy_ops ["B.ipynb"; "A.ipynb"] ∧
  files (notebook (demo "yes")).1 !! workspace_path "B.ipynb" = Some "b2" ∧
  files (notebook (demo "yes")).1 !! workspace_path "A.ipynb" = Some "a1" ∧
  files (notebook (demo "yes")).1 !! workspace_path "C.ipynb" = Some "c1".
Proof. split_and!; by vm_compute. Qed.

(** The same run in a kernel where a module is bound to the name [os]:
    the removal is performed and the run returns. *)
Lemma notebook_with_os_bound :
  let w := World demo_files ["yes"] {["os"]} [] in
  (notebook w).2 = Returned () ∧
  file_ops (log (notebook w).1)
    = copy_ops ["B.ipynb"; "A.ipynb"] ++ [Remove (workspace_path "C.ipynb")] ∧
  files (notebook w).1 !! workspace_path "C.ipynb" = None.
Proof. split_and!; by vm_compute. Qed.


(** ** Identical sets *)

(** C8: when the reference list and the working list hold the same
    identifiers, [refreshed] is the whole working list and [added] and
    [removed] are empty; and when they are the lists of a store, the
    notebook confirmed with yes returns, having only copied over files
    that were already in the workspace and removed nothing. *)
Theorem identical_sets_only_overwrite
    (reference_ids working_ids : list string) (w : world) (text : string)
    (rest : list string) :
  (∀ name, name ∈ reference_ids ↔ name ∈ working_ids) →
  compute_plan reference_ids working_ids = Plan working_ids [] [] ∧
  (reference_ids = released (files w) →
   working_ids = current (files w) →
   files w !! version_file = Some text →
   stdin w = "yes" :: rest →
   ∃ w', notebook w = (w', Returned ()) ∧
         file_ops (log w') = file_ops (log w) ++ copy_ops working_ids ∧
         (∀ b, b ∈ working_ids →
               is_Some (files w !! workspace_path b) ∧
               files w' !! workspace_path b = files w !! archive_path b) ∧
         dom (files w') = dom (files w)).
Proof.
  intros Hsame. split; [by apply compute_plan_same_ids |].
  intros -> -> Hversion Hstdin.
  assert (∀ b, b ∈ current (files w) → is_Some (files w !! archive_path b)) as Hsrc.
  { intros b Hb. apply Hsame in Hb. by apply elem_of_released in Hb as [? _]. }
  assert (∀ b, b ∈ current (files w) → is_Some (files w !! workspace_path b)) as Hdst.
  { intros b Hb. by apply elem_of_current in Hb as [? _]. }
  unfold notebook.
  erewrite bind_returned by apply cell1_run.
  rewrite compute_plan_same_ids by done.
  set (w1 := logged w _).
  rewrite (cell2_on_yes (Plan (current (files w)) [] []) w1 text rest) by done.
  rewrite apply_plan_unfold. simpl. rewrite app_nil_r.
  erewrite bind_returned; last first.
  { apply copy_loop_run; simpl; [set_solver | done]. }
  eexists. split; [reflexivity |]. simpl. split_and!.
  - rewrite !file_ops_app, file_ops_cell1, file_ops_copy_events. simpl.
    by rewrite !app_nil_r.
  - intros b Hb. split; [by apply Hdst |].
    by apply copied_lookup_workspace; [| apply Hsrc].
  - by apply dom_copied.
Qed.

Lemma identical_sets_only_overwrite_witness :
  compute_plan ["A.ipynb"; "B.ipynb"] ["A.ipynb"; "B.ipynb"]
    = Plan ["A.ipynb"; "B.ipynb"] [] [] ∧
  ∃ w', notebook (World demo_same_files ["yes"] ∅ []) = (w', Returned ()) ∧
        file_ops (log w') = copy_ops ["A.ipynb"; "B.ipynb"] ∧
        (∀ b, b ∈ ["A.ipynb"; "B.ipynb"] →
              is_Some (demo_same_files !! workspace_path b) ∧
              files w' !! workspace_path b = demo_same_files !! archive_path b) ∧
        dom (files w') = dom demo_same_files.
Proof.
  destruct (identical_sets_only_overwrite
              ["A.ipynb"; "B.ipynb"] ["A.ipynb"; "B.ipynb"]
              (World demo_same_files ["yes"] ∅ []) "20221116" [])
    as [Hplan Hrun]; [done |].
  split; [exact Hplan |].
  apply Hrun; by vm_compute.
Defined.

(** The run recorded in the notebook: sixteen tutorials in both stores,
    the two excluded notebooks in the workspace, the word yes typed.  The
    model writes the lines that the notebook kept as the output of its
    two cells, and returns. *)
Lemma recorded_run :
  let w := World recorded_files ["yes"] ∅ [] in
  (notebook w).2 = Returned () ∧
  log (notebook w).1
  = [Stdout "Refreshed tutorials:"] ++
    ((λ name, Stdout ("- " +:+ name)) <$> recorded_names) ++
    [Stdout "";
     Stdout "Added tutorials:"; Stdout " (None)"; Stdout "";
     Stdout "Removed tutorials:"; Stdout " (None)"; Stdout "";
     Stdout "Type 'yes' in the little box below to reset the tutorials notebooks to 20221116, or anything else to cancel.";
     Prompt "Proceed";
     StdoutResponse "yes"] ++
    copy_events recorded_names.
Proof. split; by vm_compute. Qed.

(** ** Running the first cell again *)

(** C9: the plan depends on the files alone: two worlds with the same
    files get the same plan from the first cell, whatever else differs;
    the cell leaves the files as they were, so running it again on the
    world it left gives the same plan; and the order in which the
    directories were listed does not matter, since the lists are
    sorted. *)
Theorem cell1_same_plan (w1 w2 : world) :
  files w1 = files w2 →
  ∃ p, (cell1 w1).2 = Returned p ∧
       (cell1 w2).2 = Returned p ∧
       files (cell1 w1).1 = files w1 ∧
       (cell1 (cell1 w1).1).2 = Returned p ∧
       ∀ listing1 listing2, listing1 ≡ₚ listing2 → sorted listing1 = sorted listing2.
Proof.
  intros Hfiles.
  exists (compute_plan (released (files w1)) (current (files w1))).
  rewrite !cell1_run. simpl. rewrite <- Hfiles. split_and!; try done.
  apply sorted_Permutation.
Qed.

Lemma cell1_same_plan_witness :
  ∃ p, (cell1 (demo "yes")).2 = Returned p ∧
       (cell1 (demo "no")).2 = Returned p ∧
       files (cell1 (demo "yes")).1 = files (demo "yes") ∧
       (cell1 (cell1 (demo "yes")).1).2 = Returned p ∧
       ∀ listing1 listing2, listing1 ≡ₚ listing2 → sorted listing1 = sorted listing2.
Proof. apply (cell1_same_plan (demo "yes") (demo "no")). reflexivity. Defined.

(** ** The excluded documents *)

(** The claim that an excluded name is in none of the three lists fails:
    when the archive holds init.ipynb, that name is in [added]. *)
Lemma excluded_name_added :
  ¬ (∀ (fs : gmap string string) (name : string),
       name ∈ excluded_basenames →
       let p := compute_plan (released fs) (current fs) in
       (name ∉ plan_refreshed p) ∧ (name ∉ plan_added p) ∧ (name ∉ plan_removed p)).
Proof.
  intros H. destruct (H demo_excluded_files "init.ipynb") as (_ & Hadded & _).
  - by left.
  - apply Hadded. vm_compute. by left.
Qed.

(** On that store the notebook confirmed with yes copies the archive's
    init.ipynb over the one of the workspace. *)
Lemma excluded_file_overwritten :
  let w := World demo_excluded_files ["yes"] ∅ [] in
  (cell1 w).2 = Returned (Plan ["A.ipynb"] ["init.ipynb"] []) ∧
  (notebook w).2 = Returned () ∧
  files w !! workspace_path "init.ipynb" = Some "boot" ∧
  files (notebook w).1 !! workspace_path "init.ipynb" = Some "released boot".
Proof. split_and!; by vm_compute. Qed.

Lemma excluded_not_current (fs : gmap string string) (name : string) :
  name ∈ excluded_basenames → name ∉ current fs.
Proof.
  intros Hname Hcur. apply elem_of_current in Hcur as (_ & _ & Hnot).
  apply Hnot. unfold excluded_basenames, excluded_paths in *. simpl in Hname.
  apply elem_of_cons in Hname as [->|Hname]; [by left |].
  apply list_elem_of_singleton in Hname as ->. right. by left.
Qed.

(** C6, as the code has it: whatever the two stores hold, an excluded
    name is never in [refreshed] and never in [removed]; it is in [added]
    exactly when the archive holds a file of that name. *)
Theorem excluded_never_refreshed_or_removed (fs : gmap string string) :
  let p := compute_plan (released fs) (current fs) in
  Forall (λ name,
            (name ∉ plan_refreshed p) ∧ (name ∉ plan_removed p) ∧
            (name ∈ plan_added p ↔ is_Some (fs !! archive_path name)))
         excluded_basenames.
Proof.
  simpl. apply Forall_forall. intros name Hname.
  pose proof (excluded_not_current fs name Hname) as Hcur.
  rewrite elem_of_refreshed, elem_of_removed, elem_of_added, elem_of_released.
  split_and!; [tauto | tauto |].
  assert (is_tutorial_name name = true) as ->; [| tauto].
  unfold excluded_basenames, excluded_paths in Hname. simpl in Hname.
  apply elem_of_cons in Hname as [->|Hname]; [done |].
  by apply list_elem_of_singleton in Hname as ->.
Qed.

(** ** Which names a listing takes *)




(** ** The listings have no duplicates and are in order *)

Lemma entry_name_Some (dir path name : string) :
  entry_name dir path = Some name → path = Path.join dir "" +:+ name.
Proof.
  unfold entry_name. intros Hname.
  destruct (Path.strip_prefix _ path) as [r|] eqn:Hr; simpl in Hname; [|done].
  apply strip_prefix_Some in Hr. subst path.
  destruct (_ || _); by simplify_eq.
Qed.

Lemma NoDup_omap_inj {A B : Type} (f : A → option B) (l : list A) :
  (∀ x y z, f x = Some z → f y = Some z → x = y) →
  NoDup l → NoDup (omap f l).
Proof.
  intros Hinj. induction 1 as [|x l Hx Hl IH]; simpl; [constructor |].
  destruct (f x) as [z|] eqn:Hz; [|done].
  constructor; [|done].
  intros Hin. apply list_elem_of_omap in Hin as (y & Hy & Hfy).
  by rewrite (Hinj x y z Hz Hfy) in Hx.
Qed.

Lemma NoDup_listdir (fs : gmap string string) (dir : string) : NoDup (listdir fs dir).
Proof.
  unfold listdir. apply NoDup_omap_inj; [| apply NoDup_fst_map_to_list].
  intros p1 p2 name H1 H2.
  apply entry_name_Some in H1, H2. by subst.
Qed.

#[global] Instance join_inj (dir : string) : Inj (=) (=) (Path.join dir).
Proof.
  intros n1 n2 H. rewrite (join_append dir n1), (join_append dir n2) in H.
  by apply (inj (String.app _)) in H.
Qed.

Lemma NoDup_glob (fs : gmap string string) (pathname : string) :
  NoDup (glob fs pathname).
Proof.
  unfold glob. apply (NoDup_fmap_2 _), NoDup_filter, NoDup_listdir.
Qed.

Lemma NoDup_sorted (l : list string) : NoDup l → NoDup (sorted l).
Proof. unfold sorted. by rewrite merge_sort_Permutation. Qed.

Lemma NoDup_released (fs : gmap string string) : NoDup (released fs).
Proof.
  unfold released. apply NoDup_fmap_2_strong.
  - intros p1 p2 Hp1 Hp2 Hbase.
    apply elem_of_released_paths in Hp1 as (n1 & -> & _ & Hn1).
    apply elem_of_released_paths in Hp2 as (n2 & -> & _ & Hn2).
    rewrite !basename_archive_path in Hbase by by apply is_tutorial_name_no_slash.
    by subst.
  - apply NoDup_sorted, NoDup_glob.
Qed.

Lemma NoDup_current (fs : gmap string string) : NoDup (current fs).
Proof.
  unfold current. apply NoDup_fmap_2_strong.
  - intros p1 p2 Hp1 Hp2 Hbase.
    apply elem_of_current_paths in Hp1 as (n1 & -> & _ & Hn1 & _).
    apply elem_of_current_paths in Hp2 as (n2 & -> & _ & Hn2 & _).
    rewrite !basename_workspace_path in Hbase by by apply is_tutorial_name_no_slash.
    by subst.
  - apply NoDup_sorted, NoDup_filter, NoDup_glob.
Qed.

Lemma ascii_compare_refl (c : ascii) : Ascii.compare c c = Eq.
Proof. unfold Ascii.compare. apply N.compare_refl. Qed.

(** A common prefix does not change the order. *)
Lemma compare_append (pre s1 s2 : string) :
  String.compare (pre +:+ s1) (pre +:+ s2) = String.compare s1 s2.
Proof.
  induction pre as [|c pre IH]; [done |].
  rewrite !append_cons. simpl. by rewrite ascii_compare_refl.
Qed.

Lemma le_append (pre s1 s2 : string) :
  String.le (pre +:+ s1) (pre +:+ s2) ↔ String.le s1 s2.
Proof. unfold String.le, String.leb. by rewrite compare_append. Qed.

Lemma HdRel_unprefix (pre x : string) (l : list string) :
  HdRel String.le (pre +:+ x) (String.app pre <$> l) → HdRel String.le x l.
Proof.
  destruct l as [|y l]; [constructor |].
  intros H. apply HdRel_inv in H. constructor. by apply le_append in H.
Qed.

Lemma Sorted_unprefix (pre : string) (l : list string) :
  Sorted String.le (String.app pre <$> l) → Sorted String.le l.
Proof.
  induction l as [|x l IH]; [constructor |].
  intros H. apply Sorted_inv in H as [Hl Hhd].
  constructor; [by apply IH | by eapply HdRel_unprefix].
Qed.

Lemma released_paths_released (fs : gmap string string) :
  released_paths fs = archive_path <$> released fs.
Proof.
  unfold released. rewrite <- list_fmap_compose.
  rewrite <- (list_fmap_id (released_paths fs)) at 1.
  apply list_fmap_ext. intros i p Hp%list_elem_of_lookup_2. simpl.
  apply elem_of_released_paths in Hp as (n & -> & _ & Hn).
  by rewrite basename_archive_path by by apply is_tutorial_name_no_slash.
Qed.

Lemma current_paths_current (fs : gmap string string) :
  current_paths fs = workspace_path <$> current fs.
Proof.
  unfold current. rewrite <- list_fmap_compose.
  rewrite <- (list_fmap_id (current_paths fs)) at 1.
  apply list_fmap_ext. intros i p Hp%list_elem_of_lookup_2. simpl.
  apply elem_of_current_paths in Hp as (n & -> & _ & Hn & _).
  by rewrite basename_workspace_path by by apply is_tutorial_name_no_slash.
Qed.

Lemma Sorted_released (fs : gmap string string) : Sorted String.le (released fs).
Proof.
  apply (Sorted_unprefix "/opt/drake/share/drake/tutorials/").
  change (String.app "/opt/drake/share/drake/tutorials/") with archive_path.
  rewrite <- released_paths_released. apply Sorted_merge_sort, _.
Qed.

Lemma Sorted_current (fs : gmap string string) : Sorted String.le (current fs).
Proof.
  apply (Sorted_unprefix "/work/").
  change (String.app "/work/") with workspace_path.
  rewrite <- current_paths_current. apply Sorted_merge_sort, _.
Qed.

Lemma StronglySorted_filter {A : Type} (R : relation A) (P : A → Prop)
    `{!∀ x, Decision (P x)} (l : list A) :
  StronglySorted R l → StronglySorted R (filter P l).
Proof.
  induction 1 as [|x l Hl IH Hx]; [constructor |].
  rewrite filter_cons. destruct (decide (P x)); [|done].
  constructor; [done |].
  apply Forall_forall. intros y Hy. apply list_elem_of_filter in Hy as [_ Hy].
  by eapply Forall_forall in Hx.
Qed.

Lemma Sorted_filter_le (P : string → Prop) `{!∀ x, Decision (P x)} (l : list string) :
  Sorted String.le l → Sorted String.le (filter P l).
Proof.
  intros Hl. apply StronglySorted_Sorted, StronglySorted_filter.
  by apply Sorted_StronglySorted; [apply _ |].
Qed.

(** ** What a run leaves alone *)

Lemma keeps_path_ret {A : Type} (path : string) (a : A) : keeps_path path (mret a).
Proof. by intros w. Qed.

Lemma keeps_path_raise {A : Type} (path : string) (e : exn) :
  keeps_path path (raise (A:=A) e).
Proof. by intros w. Qed.

Lemma keeps_path_bind {A B : Type} (path : string) (m : exec A) (f : A → exec B) :
  keeps_path path m → (∀ a, keeps_path path (f a)) → keeps_path path (m ≫= f).
Proof.
  intros Hm Hf w. unfold mbind, exec_bind. specialize (Hm w).
  destruct (m w) as [w' [a|e]]; simpl in *; [| done].
  by rewrite Hf.
Qed.

Lemma keeps_path_for_each {A : Type} (path : string) (items : list A)
    (body : A → exec unit) :
  (∀ x, x ∈ items → keeps_path path (body x)) →
  keeps_path path (for_each items body).
Proof.
  induction items as [|x items IH]; intros Hbody; simpl.
  - apply keeps_path_ret.
  - apply keeps_path_bind; [apply Hbody; by left |].
    intros _. apply IH. intros y Hy. apply Hbody. by right.
Qed.

Lemma keeps_path_emit (path : string) (ev : event) : keeps_path path (emit ev).
Proof. by intros w. Qed.

Lemma keeps_path_import (path m : string) : keeps_path path (import m).
Proof. by intros w. Qed.

Lemma keeps_path_module_name (path m : string) : keeps_path path (module_name m).
Proof. intros w. unfold module_name. by case_bool_decide. Qed.

Lemma keeps_path_read_file (path file : string) : keeps_path path (read_file file).
Proof. intros w. unfold read_file. by destruct (files w !! file). Qed.

Lemma keeps_path_input (path message : string) : keeps_path path (input message).
Proof. intros w. unfold input. by destruct (stdin w). Qed.

Lemma keeps_path_copyfile (path src dst : string) :
  path ≠ dst → keeps_path path (copyfile src dst).
Proof.
  intros Hne w. unfold copyfile. case_bool_decide; [done |].
  destruct (files w !! src); [| done]. simpl. by rewrite lookup_insert_ne.
Qed.

Lemma keeps_path_remove (path file : string) :
  path ≠ file → keeps_path path (remove file).
Proof.
  intros Hne w. unfold remove.
  destruct (files w !! file); [| done]. simpl. by rewrite lookup_delete_ne.
Qed.

Lemma keeps_path_copy_body (path base : string) :
  path ≠ workspace_path base → keeps_path path (copy_body base).
Proof.
  intros Hne. unfold copy_body.
  apply keeps_path_bind; [apply keeps_path_emit |]. intros _.
  apply keeps_path_bind; [apply keeps_path_module_name |]. intros _.
  by apply keeps_path_copyfile.
Qed.

Lemma keeps_path_remove_body (path base : string) :
  path ≠ workspace_path base → keeps_path path (remove_body base).
Proof.
  intros Hne. unfold remove_body.
  apply keeps_path_bind; [apply keeps_path_emit |]. intros _.
  apply keeps_path_bind; [apply keeps_path_module_name |]. intros _.
  by apply keeps_path_remove.
Qed.

Lemma keeps_path_confirm (path : string) : keeps_path path confirm.
Proof.
  unfold confirm.
  apply keeps_path_bind; [apply keeps_path_import |]. intros _.
  apply keeps_path_bind; [apply keeps_path_read_file |]. intros text.
  apply keeps_path_bind; [apply keeps_path_emit |]. intros _.
  apply keeps_path_bind; [apply keeps_path_input |]. intros response.
  apply keeps_path_bind; [apply keeps_path_emit |]. intros _.
  case_bool_decide; [apply keeps_path_raise | apply keeps_path_ret].
Qed.

Lemma keeps_path_apply_plan (path : string) (p : plan) :
  (∀ b, b ∈ plan_refreshed p ++ plan_added p ++ plan_removed p →
        path ≠ workspace_path b) →
  keeps_path path (apply_plan p).
Proof.
  intros Hne. rewrite apply_plan_unfold.
  apply keeps_path_bind; [| intros _]; apply keeps_path_for_each; intros b Hb.
  - apply keeps_path_copy_body, Hne. rewrite app_assoc. apply elem_of_app. by left.
  - apply keeps_path_remove_body, Hne. rewrite app_assoc. apply elem_of_app. by right.
Qed.

Lemma keeps_path_cell2 (path : string) (p : plan) :
  (∀ b, b ∈ plan_refreshed p ++ plan_added p ++ plan_removed p →
        path ≠ workspace_path b) →
  keeps_path path (cell2 p).
Proof.
  intros Hne. unfold cell2.
  apply keeps_path_bind; [apply keeps_path_confirm |]. intros _.
  by apply keeps_path_apply_plan.
Qed.

(** The identifiers of a plan are those of its two lists. *)
Lemma elem_of_plan (reference_ids working_ids : list string) (b : string) :
  let p := compute_plan reference_ids working_ids in
  b ∈ plan_refreshed p ++ plan_added p ++ plan_removed p ↔
  b ∈ reference_ids ∨ b ∈ working_ids.
Proof.
  simpl. rewrite !elem_of_app, elem_of_refreshed, elem_of_added, elem_of_removed.
  destruct (decide (b ∈ reference_ids)), (decide (b ∈ working_ids)); tauto.
Qed.

Lemma notebook_keeps_path (w : world) (path : string) :
  (∀ b, b ∈ released (files w) ∨ b ∈ current (files w) → path ≠ workspace_path b) →
  files (notebook w).1 !! path = files w !! path.
Proof.
  intros Hne. unfold notebook.
  erewrite bind_returned by apply cell1_run.
  rewrite keeps_path_cell2; [done |].
  intros b Hb. apply Hne. by apply elem_of_plan in Hb.
Qed.

(** ** Loops that stop, loops that finish *)

Lemma for_each_app {A : Type} (l1 l2 : list A) (body : A → exec unit) (w : world) :
  for_each (l1 ++ l2) body w = (for_each l1 body;; for_each l2 body) w.
Proof.
  revert w. induction l1 as [|x l1 IH]; intros w; simpl; [done |].
  unfold mbind, exec_bind in *.
  destruct (body x w) as [w' [[]|e]]; [| done]. apply IH.
Qed.

(** A copy whose released file is missing stops the loop there. *)
Lemma copy_body_missing (base : string) (w : world) :
  "shutil" ∈ modules w →
  files w !! archive_path base = None →
  copy_body base w
  = (logged w [Stdout ("Updating " +:+ base)],
     Raised (FileNotFoundError (archive_path base))).
Proof.
  intros Hshutil Hnone.
  unfold copy_body, mbind, exec_bind, print, emit, module_name, copyfile; simpl.
  rewrite bool_decide_eq_true_2 by done. simpl. by rewrite Hnone.
Qed.

Lemma copy_loop_stops (done_ rest : list string) (base : string) (w : world) :
  "shutil" ∈ modules w →
  (∀ b, b ∈ done_ → is_Some (files w !! archive_path b)) →
  files w !! archive_path base = None →
  for_each (done_ ++ base :: rest) copy_body w
  = (World (copied done_ (files w)) (stdin w) (modules w)
           (log w ++ copy_events done_ ++ [Stdout ("Updating " +:+ base)]),
     Raised (FileNotFoundError (archive_path base))).
Proof.
  intros Hshutil Hsrc Hnone. rewrite for_each_app.
  erewrite bind_returned by by apply copy_loop_run.
  cbn [for_each]. erewrite bind_raised; last first.
  { apply copy_body_missing; simpl; [done |].
    by rewrite copied_lookup_archive. }
  unfold logged. simpl. by rewrite <- app_assoc.
Qed.

Lemma deleted_lookup_other (items : list string) (fs : gmap string string) (path : string) :
  (∀ b, b ∈ items → path ≠ workspace_path b) →
  deleted items fs !! path = fs !! path.
Proof.
  revert fs. induction items as [|base items IH]; intros fs Hpath; simpl; [done |].
  rewrite IH by (intros b Hb; apply Hpath; by right).
  apply lookup_delete_ne. intros Heq. by apply (Hpath base); [left |].
Qed.

Lemma deleted_lookup_None (items : list string) (fs : gmap string string) (path : string) :
  fs !! path = None → deleted items fs !! path = None.
Proof.
  revert fs. induction items as [|base items IH]; intros fs Hnone; simpl; [done |].
  apply IH. destruct (decide (workspace_path base = path)) as [<-|Hne].
  - apply lookup_delete_eq.
  - by rewrite lookup_delete_ne.
Qed.

Lemma deleted_lookup_removed (items : list string) (fs : gmap string string) (b : string) :
  b ∈ items → deleted items fs !! workspace_path b = None.
Proof.
  revert fs. induction items as [|base items IH]; intros fs Hb.
  - by apply elem_of_nil in Hb.
  - simpl. apply elem_of_cons in Hb as [->|Hb]; [| by apply IH].
    apply deleted_lookup_None, lookup_delete_eq.
Qed.

(** With a module bound to the name [os], the removal loop over distinct
    names whose files are there runs to its end. *)
Lemma remove_loop_run (items : list string) (w : world) :
  "os" ∈ modules w →
  NoDup items →
  (∀ b, b ∈ items → is_Some (files w !! workspace_path b)) →
  for_each items remove_body w
  = (World (deleted items (files w)) (stdin w) (modules w)
           (log w ++ remove_events items), Returned ()).
Proof.
  intros Hos Hnodup. revert w Hos.
  induction Hnodup as [|base items Hbase Hnodup IH]; intros w Hos Hdst.
  - simpl. unfold mret, exec_ret. destruct w. simpl. by rewrite app_nil_r.
  - destruct (Hdst base) as [data Hdata]; [by left |].
    cbn [for_each]. erewrite bind_returned by (by eapply remove_body_run).
    rewrite IH; cbn [files stdin modules log]; [| done |].
    + cbn [deleted]. unfold remove_events. rewrite bind_cons.
      by rewrite <- app_assoc.
    + intros b Hb. rewrite lookup_delete_ne.
      * apply Hdst. by right.
      * intros Heq. apply (inj workspace_path) in Heq. by subst.
Qed.


Lemma NoDup_plan (fs : gmap string string) :
  let p := compute_plan (released fs) (current fs) in
  NoDup (plan_refreshed p) ∧ NoDup (plan_added p) ∧ NoDup (plan_removed p).
Proof.
  simpl. unfold refreshed, added, removed.
  split_and!; apply NoDup_filter; apply NoDup_released || apply NoDup_current.
Qed.

(** The whole notebook, confirmed with yes, when it can finish: a module
    is bound to the name [os], or there is nothing to remove. *)
Lemma notebook_run_ok (w : world) (text : string) (rest : list string) :
  let p := compute_plan (released (files w)) (current (files w)) in
  "os" ∈ modules w ∨ plan_removed p = [] →
  files w !! version_file = Some text →
  stdin w = "yes" :: rest →
  notebook w
  = (World (final_files (files w)) rest ({["shutil"]} ∪ modules w)
           (log w ++ cell1_lines p ++ confirm_lines text "yes" ++
            copy_events (plan_refreshed p ++ plan_added p) ++
            remove_events (plan_removed p)),
     Returned ()).
Proof.
  intros p Hcan Hversion Hstdin. unfold notebook.
  erewrite bind_returned by apply cell1_run. fold p.
  rewrite (cell2_on_yes p (logged w (cell1_lines p)) text rest) by done.
  rewrite apply_plan_unfold.
  erewrite bind_returned; last first.
  { apply copy_loop_run; simpl; [set_solver | apply plan_sources_exist]. }
  unfold final_files. fold p.
  destruct Hcan as [Hos|Hnil].
  - rewrite remove_loop_run; unfold asked, logged; cbn [files stdin modules log].
    + by rewrite <- !app_assoc.
    + set_solver.
    + apply NoDup_filter, NoDup_current.
    + intros b Hb. apply copied_lookup_is_Some.
      apply elem_of_removed in Hb as [Hb _].
      by apply elem_of_current in Hb as [? _].
  - rewrite Hnil. unfold asked, logged, mret, exec_ret, remove_events.
    cbn [files stdin modules log for_each deleted mbind list_bind].
    by rewrite app_nil_r, <- !app_assoc.
Qed.

(** ** The files a finished run leaves *)

Lemma final_lookup_released (fs : gmap string string) (name : string) :
  name ∈ released fs →
  final_files fs !! workspace_path name = fs !! archive_path name.
Proof.
  intros Hrel. unfold final_files.
  rewrite deleted_lookup_other.
  - apply copied_lookup_workspace.
    + simpl. rewrite elem_of_app, elem_of_refreshed, elem_of_added.
      destruct (decide (name ∈ current fs)); tauto.
    + by apply elem_of_released in Hrel as [? _].
  - simpl. intros b Hb Heq. apply (inj workspace_path) in Heq. subst b.
    by apply elem_of_removed in Hb as [_ Hb].
Qed.

Lemma final_lookup_removed (fs : gmap string string) (name : string) :
  name ∈ current fs → name ∉ released fs →
  final_files fs !! workspace_path name = None.
Proof.
  intros Hcur Hrel. unfold final_files.
  apply deleted_lookup_removed. simpl. by apply elem_of_removed.
Qed.

Lemma final_lookup_other (fs : gmap string string) (path : string) :
  (∀ b, b ∈ released fs ∨ b ∈ current fs → path ≠ workspace_path b) →
  final_files fs !! path = fs !! path.
Proof.
  intros Hne. unfold final_files.
  rewrite deleted_lookup_other, copied_lookup_other; [done | |]; simpl.
  - intros b Hb. apply Hne.
    apply elem_of_app in Hb as [Hb|Hb].
    + apply elem_of_refreshed in Hb. tauto.
    + apply elem_of_added in Hb. tauto.
  - intros b Hb. apply Hne. apply elem_of_removed in Hb. tauto.
Qed.

Lemma final_lookup_archive (fs : gmap string string) (name : string) :
  final_files fs !! archive_path name = fs !! archive_path name.
Proof.
  apply final_lookup_other. intros b _ Heq.
  by apply (workspace_archive_ne b name).
Qed.

Lemma sorted_lists_eq (l1 l2 : list string) :
  Sorted String.le l1 → Sorted String.le l2 → NoDup l1 → NoDup l2 →
  (∀ x, x ∈ l1 ↔ x ∈ l2) → l1 = l2.
Proof.
  intros Hs1 Hs2 Hn1 Hn2 Hsame.
  apply (Sorted_unique String.le); [done.. |].
  by apply NoDup_Permutation.
Qed.

(** The archive is listed the same after the run. *)
Lemma released_final (fs : gmap string string) :
  released (final_files fs) = released fs.
Proof.
  apply sorted_lists_eq;
    [apply Sorted_released | apply Sorted_released
    | apply NoDup_released | apply NoDup_released |].
  intros name. by rewrite !elem_of_released, final_lookup_archive.
Qed.

Lemma excluded_path_basename (name : string) :
  workspace_path name ∈ excluded_paths ↔ name ∈ excluded_basenames.
Proof.
  change excluded_paths with
    (workspace_path <$> ["init.ipynb"; "zzz_for_maintainers.ipynb"]).
  change excluded_basenames with ["init.ipynb"; "zzz_for_maintainers.ipynb"].
  apply (list_elem_of_fmap_inj workspace_path).
Qed.

(** The workspace then lists the released names that are not excluded. *)
Lemma elem_of_current_final (fs : gmap string string) (name : string) :
  name ∈ current (final_files fs) ↔
  name ∈ released fs ∧ name ∉ excluded_basenames.
Proof.
  rewrite elem_of_current, excluded_path_basename. split.
  - intros (Hsome & Hname & Hex). split; [| done].
    destruct (decide (name ∈ released fs)) as [|Hrel]; [done |].
    destruct (decide (name ∈ current fs)) as [Hcur|Hcur].
    + rewrite final_lookup_removed in Hsome by done. by destruct Hsome.
    + rewrite final_lookup_other in Hsome.
      * exfalso. apply Hcur, elem_of_current.
        by rewrite excluded_path_basename.
      * intros b [Hb|Hb] Heq; apply (inj workspace_path) in Heq; by subst.
  - intros [Hrel Hex]. rewrite final_lookup_released by done.
    apply elem_of_released in Hrel as [? ?]. done.
Qed.

(** After a finished run nothing is left to remove, and only excluded
    names can be left to add. *)
Lemma plan_final (fs : gmap string string) :
  let p' := compute_plan (released (final_files fs)) (current (final_files fs)) in
  plan_refreshed p' = current (final_files fs) ∧
  plan_removed p' = [] ∧
  ∀ name, name ∈ plan_added p' → name ∈ excluded_basenames.
Proof.
  simpl. rewrite released_final. split_and!.
  - apply filter_all. intros name Hname.
    by apply elem_of_current_final in Hname as [? _].
  - apply filter_none. intros name Hname Hnot.
    by apply elem_of_current_final in Hname as [? _].
  - intros name Hname. apply elem_of_added in Hname as [Hrel Hcur].
    rewrite elem_of_current_final in Hcur.
    destruct (decide (name ∈ excluded_basenames)); tauto.
Qed.

(** The copies take each released name once, and the working names are
    the refreshed and the removed ones. *)
Lemma to_copy_Permutation (reference_ids working_ids : list string) :
  NoDup reference_ids → NoDup working_ids →
  refreshed reference_ids working_ids ++ added reference_ids working_ids
    ≡ₚ reference_ids.
Proof.
  intros Href Hwork.
  etrans; [| apply (filter_app_complement (λ name, name ∈ working_ids))].
  apply Permutation_app; [| done].
  apply NoDup_Permutation; [by apply NoDup_filter.. |].
  intros name. rewrite elem_of_refreshed, list_elem_of_filter. tauto.
Qed.

Lemma refreshed_removed_Permutation (reference_ids working_ids : list string) :
  refreshed reference_ids working_ids ++ removed reference_ids working_ids
    ≡ₚ working_ids.
Proof. apply filter_app_complement. Qed.

(** ** Further properties of the first cell *)

(** X1: [print_list] always returns and only writes: the heading, then
    the line (None) when there are no items and otherwise one line per
    item in order, then an empty line. *)
Theorem print_list_report (heading : string) (items : list string) (w : world) :
  (items = [] →
   print_list heading items w
   = (World (files w) (stdin w) (modules w)
            (log w ++ [Stdout heading; Stdout " (None)"; Stdout ""]),
      Returned ())) ∧
  (items ≠ [] →
   print_list heading items w
   = (World (files w) (stdin w) (modules w)
            (log w ++ Stdout heading ::
               ((λ item, Stdout ("- " +:+ item)) <$> items) ++ [Stdout ""]),
      Returned ())).
Proof.
  rewrite print_list_run. unfold print_list_lines, logged. split.
  - by intros ->.
  - intros Hne. by rewrite bool_decide_eq_false_2.
Qed.

(** X2: the listed paths and the identifiers determine each other: the
    released paths are the archive paths of the released identifiers,
    the current paths are the workspace paths of the current
    identifiers, and each of these files is there. *)
Theorem listed_paths_round_trip (fs : gmap string string) :
  released_paths fs = archive_path <$> released fs ∧
  current_paths fs = workspace_path <$> current fs ∧
  Forall (λ name, is_Some (fs !! archive_path name)) (released fs) ∧
  Forall (λ name, is_Some (fs !! workspace_path name) ∧
                  (workspace_path name ∉ excluded_paths)) (current fs).
Proof.
  split_and!.
  - apply released_paths_released.
  - apply current_paths_current.
  - apply Forall_forall. intros name Hname.
    by apply elem_of_released in Hname as [? _].
  - apply Forall_forall. intros name Hname.
    by apply elem_of_current in Hname as (? & _ & ?).
Qed.


(** X4: for every store the released and the current identifiers, and
    with them the three lists of the plan, are in ascending order and
    have no identifier twice. *)
Theorem plan_lists_sorted_nodup (fs : gmap string string) :
  let p := compute_plan (released fs) (current fs) in
  (Sorted String.le (released fs) ∧ NoDup (released fs)) ∧
  (Sorted String.le (current fs) ∧ NoDup (current fs)) ∧
  (Sorted String.le (plan_refreshed p) ∧ NoDup (plan_refreshed p)) ∧
  (Sorted String.le (plan_added p) ∧ NoDup (plan_added p)) ∧
  (Sorted String.le (plan_removed p) ∧ NoDup (plan_removed p)).
Proof.
  pose proof (Sorted_released fs). pose proof (Sorted_current fs).
  pose proof (NoDup_released fs). pose proof (NoDup_current fs).
  simpl. unfold refreshed, added, removed.
  split_and!; try done; by (apply Sorted_filter_le || apply NoDup_filter).
Qed.

(** X5: for every store the identifiers to copy are the released ones,
    each once, and the refreshed and removed ones together are the
    current ones, each once. *)
Theorem copies_cover_released (fs : gmap string string) :
  let p := compute_plan (released fs) (current fs) in
  plan_refreshed p ++ plan_added p ≡ₚ released fs ∧
  plan_refreshed p ++ plan_removed p ≡ₚ current fs ∧
  NoDup (plan_refreshed p ++ plan_added p) ∧
  NoDup (plan_refreshed p ++ plan_removed p).
Proof.
  simpl.
  pose proof (to_copy_Permutation (released fs) (current fs)
                (NoDup_released fs) (NoDup_current fs)) as Hcopy.
  pose proof (refreshed_removed_Permutation (released fs) (current fs)) as Hcur.
  split_and!; [done | done | |].
  - rewrite Hcopy. apply NoDup_released.
  - rewrite Hcur. apply NoDup_current.
Qed.

(** ** Further properties of the second cell *)

Lemma confirm_missing_version (w : world) :
  files w !! version_file = None →
  confirm w = (World (files w) (stdin w) ({["shutil"]} ∪ modules w) (log w),
               Raised (FileNotFoundError version_file)).
Proof.
  intros Hnone.
  unfold confirm, mbind, exec_bind, import, read_file; simpl. by rewrite Hnone.
Qed.

(** X6: the version file is read before anything is asked: when it is
    missing the second cell raises the file error for it, with no prompt
    written, no line taken from the input stream, and no file changed. *)
Theorem missing_version_file (p : plan) (w : world) :
  files w !! version_file = None →
  cell2 p w = (World (files w) (stdin w) ({["shutil"]} ∪ modules w) (log w),
               Raised (FileNotFoundError version_file)).
Proof.
  intros Hnone.
  rewrite (cell2_aborts p w (FileNotFoundError version_file));
    by rewrite confirm_missing_version.
Qed.

Lemma missing_version_file_witness :
  cell2 (Plan ["B.ipynb"] ["A.ipynb"] ["C.ipynb"])
        (World (delete version_file demo_files) ["yes"] ∅ [])
  = (World (delete version_file demo_files) ["yes"] ({["shutil"]} ∪ ∅) [],
     Raised (FileNotFoundError version_file)).
Proof.
  refine (missing_version_file (Plan ["B.ipynb"] ["A.ipynb"] ["C.ipynb"])
            (World (delete version_file demo_files) ["yes"] ∅ []) _).
  reflexivity.
Defined.

(** X7: a copy whose released file is missing raises the file error for
    it and ends the cell there: the copies before it stay, the later
    ones and every removal are not attempted. *)
Theorem copy_failure_keeps_earlier_copies
    (p : plan) (w : world) (text : string) (input_rest : list string)
    (before after : list string) (base : string) :
  files w !! version_file = Some text →
  stdin w = "yes" :: input_rest →
  plan_refreshed p ++ plan_added p = before ++ base :: after →
  (∀ b, b ∈ before → is_Some (files w !! archive_path b)) →
  files w !! archive_path base = None →
  ∃ w', cell2 p w = (w', Raised (FileNotFoundError (archive_path base))) ∧
        files w' = copied before (files w) ∧
        file_ops (log w') = file_ops (log w) ++ copy_ops before ∧
        ∀ b, b ∈ before → files w' !! workspace_path b = files w !! archive_path b.
Proof.
  intros Hversion Hstdin Hsplit Hsrc Hnone.
  rewrite (cell2_on_yes p w text input_rest Hversion Hstdin).
  rewrite apply_plan_unfold, Hsplit.
  erewrite bind_raised; last first.
  { apply copy_loop_stops; simpl; [set_solver | done | done]. }
  eexists. split; [reflexivity |]. simpl. split_and!.
  - done.
  - rewrite !file_ops_app, file_ops_copy_events. simpl. by rewrite !app_nil_r.
  - intros b Hb. by apply copied_lookup_workspace; [| apply Hsrc].
Qed.

Lemma copy_failure_keeps_earlier_copies_witness :
  ∃ w', cell2 (Plan ["B.ipynb"] ["Z.ipynb"; "A.ipynb"] ["C.ipynb"]) (demo "yes")
          = (w', Raised (FileNotFoundError (archive_path "Z.ipynb"))) ∧
        files w' = copied ["B.ipynb"] demo_files ∧
        file_ops (log w') = copy_ops ["B.ipynb"] ∧
        ∀ b, b ∈ ["B.ipynb"] →
             files w' !! workspace_path b = demo_files !! archive_path b.
Proof.
  apply (copy_failure_keeps_earlier_copies
           (Plan ["B.ipynb"] ["Z.ipynb"; "A.ipynb"] ["C.ipynb"]) (demo "yes")
           "20221116-rest of the file" [] ["B.ipynb"] ["A.ipynb"] "Z.ipynb").
  - reflexivity.
  - reflexivity.
  - reflexivity.
  - intros b Hb. apply list_elem_of_singleton in Hb as ->. by eexists.
  - reflexivity.
Defined.

Lemma workspace_version_ne (b : string) : version_file ≠ workspace_path b.
Proof. unfold workspace_path, version_file. intros H. by vm_compute in H. Qed.


(** X9: a run changes only the workspace files of released and current
    identifiers: any other path, such as a workspace file that is no
    tutorial, holds what it held, whatever was typed and however the run
    ended. *)
Theorem other_files_kept (w : world) (path : string) :
  path ∉ workspace_path <$> (released (files w) ++ current (files w)) →
  files (notebook w).1 !! path = files w !! path.
Proof.
  intros Hpath. apply notebook_keeps_path. intros b Hb Heq. apply Hpath.
  rewrite Heq. apply list_elem_of_fmap_2, elem_of_app. tauto.
Qed.

Lemma other_files_kept_witness :
  files (notebook (World demo_added_files ["yes"] ∅ [])).1 !! workspace_path "notes.txt"
  = demo_added_files !! workspace_path "notes.txt".
Proof.
  apply (other_files_kept (World demo_added_files ["yes"] ∅ [])
           (workspace_path "notes.txt")).
  apply (bool_decide_unpack _). by vm_compute.
Defined.

(** X10: the workspace file of an excluded name is left as it is by
    every run, provided the archive has no file of that name. *)
Theorem excluded_kept_unless_released (w : world) (name : string) :
  name ∈ excluded_basenames →
  files w !! archive_path name = None →
  files (notebook w).1 !! workspace_path name = files w !! workspace_path name.
Proof.
  intros Hname Hnone. apply notebook_keeps_path.
  intros b Hb Heq. apply (inj workspace_path) in Heq. subst b.
  destruct Hb as [Hb|Hb].
  - apply elem_of_released in Hb as [Hsome _]. rewrite Hnone in Hsome.
    by destruct Hsome.
  - by apply (excluded_not_current (files w) name).
Qed.

Lemma excluded_kept_unless_released_witness :
  files (notebook (World demo_added_files ["yes"] ∅ [])).1 !! workspace_path "init.ipynb"
  = demo_added_files !! workspace_path "init.ipynb".
Proof.
  apply (excluded_kept_unless_released (World demo_added_files ["yes"] ∅ [])
           "init.ipynb").
  - apply (bool_decide_unpack _). by vm_compute.
  - reflexivity.
Defined.

(** ** Whole runs *)





(** X13: after such a run the first cell has nothing more to do: on the
    files the run left, the released identifiers are the same, nothing
    is to be removed, every current identifier is refreshed, and only an
    excluded name can still be listed as added. *)
Theorem finished_run_leaves_nothing_to_do
    (w : world) (text : string) (rest : list string) :
  "os" ∈ modules w ∨
    plan_removed (compute_plan (released (files w)) (current (files w))) = [] →
  files w !! version_file = Some text →
  stdin w = "yes" :: rest →
  let fs' := files (notebook w).1 in
  let p' := compute_plan (released fs') (current fs') in
  (notebook w).2 = Returned () ∧
  released fs' = released (files w) ∧
  plan_refreshed p' = current fs' ∧
  plan_removed p' = [] ∧
  ∀ name, name ∈ plan_added p' → name ∈ excluded_basenames.
Proof.
  intros Hcan Hversion Hstdin.
  rewrite (notebook_run_ok w text rest Hcan Hversion Hstdin).
  cbn [fst snd files].
  destruct (plan_final (files w)) as (Hrefreshed & Hremoved & Hadded).
  split_and!; [done | apply released_final | done | done | done].
Qed.

Lemma finished_run_leaves_nothing_to_do_witness :
  let fs' := files (notebook (World demo_added_files ["yes"] ∅ [])).1 in
  let p' := compute_plan (released fs') (current fs') in
  (notebook (World demo_added_files ["yes"] ∅ [])).2 = Returned () ∧
  released fs' = released demo_added_files ∧
  plan_refreshed p' = current fs' ∧
  plan_removed p' = [] ∧
  ∀ name, name ∈ plan_added p' → name ∈ excluded_basenames.
Proof.
  apply (finished_run_leaves_nothing_to_do
           (World demo_added_files ["yes"] ∅ []) "20221116" []).
  - right. by vm_compute.
  - reflexivity.
  - reflexivity.
Defined.

Lemma final_files_idemp (fs : gmap string string) :
  final_files (final_files fs) = final_files fs.
Proof.
  apply map_eq. intros path.
  destruct (decide (path ∈ workspace_path <$> released fs)) as [Hrel|Hrel].
  - apply list_elem_of_fmap in Hrel as (name & -> & Hname).
    rewrite (final_lookup_released (final_files fs))
      by by rewrite released_final.
    by rewrite final_lookup_archive, final_lookup_released.
  - apply final_lookup_other. intros b Hb ->. apply Hrel.
    apply list_elem_of_fmap_2.
    destruct Hb as [Hb|Hb].
    + by rewrite released_final in Hb.
    + by apply elem_of_current_final in Hb as [? _].
Qed.

(** X14: running the notebook again after a run that finished changes
    no file: the second run, confirmed with yes, returns and leaves the
    files as the first run left them. *)
Theorem second_run_changes_nothing (w : world) (text : string) (rest : list string) :
  "os" ∈ modules w ∨
    plan_removed (compute_plan (released (files w)) (current (files w))) = [] →
  files w !! version_file = Some text →
  stdin w = "yes" :: "yes" :: rest →
  (notebook (notebook w).1).2 = Returned () ∧
  files (notebook (notebook w).1).1 = files (notebook w).1.
Proof.
  intros Hcan Hversion Hstdin.
  rewrite (notebook_run_ok w text ("yes" :: rest) Hcan Hversion Hstdin).
  cbn [fst].
  rewrite (notebook_run_ok _ text rest); cbn [files stdin modules fst snd].
  - split; [done | apply final_files_idemp].
  - right. apply plan_final.
  - rewrite final_lookup_other; [done |].
    intros b _. apply workspace_version_ne.
  - done.
Qed.

Lemma second_run_changes_nothing_witness :
  let w := World demo_added_files ["yes"; "yes"] ∅ [] in
  (notebook (notebook w).1).2 = Returned () ∧
  files (notebook (notebook w).1).1 = files (notebook w).1.
Proof.
  apply (second_run_changes_nothing
           (World demo_added_files ["yes"; "yes"] ∅ []) "20221116" []).
  - right. by vm_compute.
  - reflexivity.
  - reflexivity.
Defined.
